(** * AutoEcuFHE: a shallow embedding of [contracts/AutoEcuFHE.sol]

    The contract keeps one record per submitted CAN message (three
    ciphertext handles, later the decrypted strings), a per-ECU encrypted
    counter, and a table from decryption-request ids to message ids.  The
    FHE library and the decryption oracle are external: they appear here as
    an interface ([FHELib]), and what they answer to one call (the request
    id the oracle hands out, whether the proof of a callback checks out,
    which handles the library's access-control list lets the contract use)
    is part of the per-call environment [env].

    Conventions:
    - [uint256] values are [Z]; Solidity 0.8 arithmetic is checked, an
      overflow raises [Panic 0x11];
    - the library checks the contract's permission on every handle it is
      given: [FHE.requestDecryption] and [FHE.add] revert on a handle the
      contract is not allowed on, the zero handle among them;
      [FHE.checkSignatures] reverts on a bad proof and logs
      [DecryptionFulfilled] on a good one; [abi.decode] may fail;
    - a Solidity mapping is a total map whose unwritten keys hold the zero
      value: a [gmap] read through [at_key] with that zero value;
    - a call runs in the monad [M]: it either succeeds with a new storage
      and the events it emitted, or fails, and a failed call leaves the
      storage as it was ([transact]); the events are those logged under the
      contract's own address, the library's [DecryptionFulfilled] among
      them, not those the ACL or the oracle contracts log. *)

From Stdlib Require Import ZArith List Bool Lia.
From stdpp Require Import gmap strings list fin_maps.

Local Open Scope string_scope.
Local Open Scope list_scope.
Local Open Scope Z_scope.

(** ** Value types *)

Definition uint256 := Z.
Definition MAX_UINT256 : Z := 2 ^ 256 - 1.

(** An [euint32] is a [bytes32] handle; the zero handle is "not initialised". *)
Definition euint32 := Z.
Definition address := Z.
Definition bytes := list Byte.byte.

Record EncryptedCanMessage := mkEncrypted {
  id : uint256;
  encryptedCommand : euint32;
  encryptedSourceEcu : euint32;
  encryptedTargetEcu : euint32;
  timestamp : uint256
}.

Record DecryptedCanMessage := mkDecrypted {
  command : string;
  sourceEcu : string;
  targetEcu : string;
  isVerified : bool
}.

(** The zero values of the two structs. *)
Definition zeroEncrypted : EncryptedCanMessage := mkEncrypted 0 0 0 0 0.
Definition zeroDecrypted : DecryptedCanMessage := mkDecrypted "" "" "" false.

Inductive event :=
| MessageReceived (msgId : uint256) (time : uint256)
| VerificationRequested (msgId : uint256)
| MessageVerified (msgId : uint256)
| DecryptionFulfilled (requestId : uint256).

Inductive error :=
| Revert (reason : string)
| Panic (code : Z)
| InvalidKMSSignatures
| SenderNotAllowed
| ACLNotAllowed
| AbiDecodeError
| OutOfGas.

(** ** Storage *)

Record storage := mkStorage {
  messageCount : uint256;
  encryptedMessages : gmap Z EncryptedCanMessage;
  decryptedMessages : gmap Z DecryptedCanMessage;
  encryptedEcuStats : gmap string euint32;
  ecuList : list string;
  requestToMessageId : gmap Z Z
}.

(** Reading a mapping: an unwritten key holds the zero value [d]. *)
Definition at_key {K V} `{Countable K} (d : V) (m : gmap K V) (k : K) : V :=
  default d (m !! k).

Definition encryptedAt (s : storage) (i : Z) : EncryptedCanMessage :=
  at_key zeroEncrypted (encryptedMessages s) i.
Definition decryptedAt (s : storage) (i : Z) : DecryptedCanMessage :=
  at_key zeroDecrypted (decryptedMessages s) i.
Definition statsAt (s : storage) (ecu : string) : euint32 :=
  at_key 0 (encryptedEcuStats s) ecu.
Definition requestAt (s : storage) (r : Z) : Z :=
  at_key 0 (requestToMessageId s) r.

(** The storage of the freshly deployed contract. *)
Definition initial : storage := mkStorage 0 ∅ ∅ ∅ [] ∅.

Definition set_messageCount (n : Z) (s : storage) : storage :=
  mkStorage n (encryptedMessages s) (decryptedMessages s)
            (encryptedEcuStats s) (ecuList s) (requestToMessageId s).
Definition set_encryptedMessage (i : Z) (m : EncryptedCanMessage) (s : storage) : storage :=
  mkStorage (messageCount s) (<[i := m]> (encryptedMessages s)) (decryptedMessages s)
            (encryptedEcuStats s) (ecuList s) (requestToMessageId s).
Definition set_decryptedMessage (i : Z) (m : DecryptedCanMessage) (s : storage) : storage :=
  mkStorage (messageCount s) (encryptedMessages s) (<[i := m]> (decryptedMessages s))
            (encryptedEcuStats s) (ecuList s) (requestToMessageId s).
Definition set_ecuStats (ecu : string) (h : euint32) (s : storage) : storage :=
  mkStorage (messageCount s) (encryptedMessages s) (decryptedMessages s)
            (<[ecu := h]> (encryptedEcuStats s)) (ecuList s) (requestToMessageId s).
Definition push_ecuList (ecu : string) (s : storage) : storage :=
  mkStorage (messageCount s) (encryptedMessages s) (decryptedMessages s)
            (encryptedEcuStats s) (ecuList s ++ [ecu]) (requestToMessageId s).
Definition set_request (r i : Z) (s : storage) : storage :=
  mkStorage (messageCount s) (encryptedMessages s) (decryptedMessages s)
            (encryptedEcuStats s) (ecuList s) (<[r := i]> (requestToMessageId s)).

(** Field-wise writes through the storage pointer [dMsg]. *)
Definition with_command (c : string) (d : DecryptedCanMessage) :=
  mkDecrypted c (sourceEcu d) (targetEcu d) (isVerified d).
Definition with_sourceEcu (e : string) (d : DecryptedCanMessage) :=
  mkDecrypted (command d) e (targetEcu d) (isVerified d).
Definition with_targetEcu (e : string) (d : DecryptedCanMessage) :=
  mkDecrypted (command d) (sourceEcu d) e (isVerified d).
Definition with_isVerified (b : bool) (d : DecryptedCanMessage) :=
  mkDecrypted (command d) (sourceEcu d) (targetEcu d) b.

(** ** The call monad *)

Inductive outcome (A : Type) :=
| Success (a : A) (s : storage) (evs : list event)
| Failure (e : error).
Arguments Success {A} a s evs.
Arguments Failure {A} e.

Definition M (A : Type) := storage -> outcome A.

Definition ret {A} (a : A) : M A := fun s => Success a s [].

Definition bind {A B} (m : M A) (k : A -> M B) : M B :=
  fun s =>
    match m s with
    | Success a s1 e1 =>
        match k a s1 with
        | Success b s2 e2 => Success b s2 (e1 ++ e2)
        | Failure e => Failure e
        end
    | Failure e => Failure e
    end.

#[global] Instance M_ret : MRet M := @ret.
#[global] Instance M_bind : MBind M := fun A B k m => bind m k.

Definition gets {A} (f : storage -> A) : M A := fun s => Success (f s) s [].
Definition modify (f : storage -> storage) : M unit := fun s => Success tt (f s) [].
Definition emit (e : event) : M unit := fun s => Success tt s [e].
Definition fail {A} (e : error) : M A := fun _ => Failure e.

Definition require (cond : bool) (reason : string) : M unit :=
  if cond then ret tt else fail (Revert reason).

(** Checked [uint256] addition and multiplication. *)
Definition checked_add (a b : Z) : M Z :=
  if a + b <=? MAX_UINT256 then ret (a + b) else fail (Panic 17).
Definition checked_mul (a b : Z) : M Z :=
  if a * b <=? MAX_UINT256 then ret (a * b) else fail (Panic 17).
Definition checked_div (a b : Z) : M Z :=
  if b =? 0 then fail (Panic 18) else ret (a / b).

Definition lift_decode {A} (o : option A) : M A :=
  match o with
  | Some a => ret a
  | None => fail AbiDecodeError
  end.

(** ** External interfaces *)

(** The two operations of the FHE library that compute new handles: the
    handle the coprocessor returns when it accepts the operation.  Whether
    it accepts is the access-control check of [FHE_add_checked] below. *)
Class FHELib := {
  FHE_asEuint32 : Z -> euint32;
  FHE_add : euint32 -> euint32 -> euint32
}.

(** [keccak256] and [abi.decode], the EVM built-ins the contract uses;
    [abi.decode] fails on a malformed payload. *)
Class EVMBuiltins := {
  keccak256 : bytes -> Z;
  abi_decode_strings : bytes -> option (string * string * string);
  abi_decode_uint32 : bytes -> option Z
}.

Definition FHE_isInitialized (h : euint32) : bool := negb (h =? 0).
Definition FHE_toBytes32 (h : euint32) : Z := h.

(** [abi.encodePacked] of one string is the string's bytes. *)
Definition abi_encodePacked (x : string) : bytes := String.list_byte_of_string x.

Inductive selector := verifyCommand_selector | decryptEcuStats_selector.

(** What one call sees of the outside world: the caller, the block
    timestamp, the request id the oracle assigns should the call request a
    decryption, whether [FHE.checkSignatures] accepts the proof should the
    call check one, and the library's access-control list as it stands:
    the handles on which the contract holds a lasting permission. *)
Record env := mkEnv {
  msg_sender : address;
  block_timestamp : uint256;
  oracle_requestId : uint256;
  signatures_ok : bool;
  acl_allowed : euint32 -> bool
}.

(** A lasting permission: never on the zero handle. *)
Definition persistently_allowed (e : env) (h : euint32) : bool :=
  FHE_isInitialized h && acl_allowed e h.

(** The library's [isAllowed]: the handles it created for the contract
    during this call ([transient]), or a lasting permission. *)
Definition isAllowed (e : env) (transient : list euint32) (h : euint32) : bool :=
  bool_decide (h ∈ transient) || persistently_allowed e h.

(** [FHE.requestDecryption]: the access-control list must allow the
    contract on every handle (it reverts with [SenderNotAllowed]
    otherwise); the oracle then assigns the request id. *)
Definition FHE_requestDecryption (e : env) (ciphertexts : list Z) (cb : selector) : M Z :=
  if forallb (persistently_allowed e) ciphertexts
  then ret (oracle_requestId e)
  else fail SenderNotAllowed.

(** [FHE.checkSignatures]: reverts on a proof that does not check out, and
    logs [DecryptionFulfilled] otherwise. *)
Definition FHE_checkSignatures (e : env) (requestId : Z) (cleartexts proof : bytes) : M unit :=
  if signatures_ok e then emit (DecryptionFulfilled requestId) else fail InvalidKMSSignatures.

(** [FHE.add]: the coprocessor computes on operands the contract is allowed
    on, and reverts with [ACLNotAllowed] otherwise.  (The library first
    replaces an uninitialised operand by a trivial encryption of 0; the
    contract only adds a trivial encryption of 1 to a counter that is
    initialised or is the trivial encryption of 0 it has just stored.) *)
Definition FHE_add_checked `{FHELib} (e : env) (transient : list euint32)
    (a b : euint32) : M euint32 :=
  if isAllowed e transient a && isAllowed e transient b
  then ret (FHE_add a b)
  else fail ACLNotAllowed.

(** ** The contract *)

Section Contract.
Context `{FHELib} `{EVMBuiltins}.

(** [modifier onlyAuthorized(uint256 messageId) { _; }] *)
Definition onlyAuthorized {A} (sender : address) (messageId : Z) (body : M A) : M A :=
  body.

Definition submitEncryptedCanMessage (e : env)
    (encryptedCommand encryptedSourceEcu encryptedTargetEcu : euint32) : M unit :=
  mc ← gets messageCount;
  mc' ← checked_add mc 1;
  modify (set_messageCount mc');;
  newId ← gets messageCount;
  modify (set_encryptedMessage newId
            (mkEncrypted newId encryptedCommand encryptedSourceEcu encryptedTargetEcu
                         (block_timestamp e)));;
  modify (set_decryptedMessage newId (mkDecrypted "" "" "" false));;
  emit (MessageReceived newId (block_timestamp e)).

Definition requestCommandVerification (e : env) (messageId : Z) : M unit :=
  onlyAuthorized (msg_sender e) messageId (
    msg ← gets (fun s => encryptedAt s messageId);
    dm ← gets (fun s => decryptedAt s messageId);
    require (negb (isVerified dm)) "Already verified";;
    let ciphertexts := [FHE_toBytes32 (encryptedCommand msg);
                        FHE_toBytes32 (encryptedSourceEcu msg);
                        FHE_toBytes32 (encryptedTargetEcu msg)] in
    reqId ← FHE_requestDecryption e ciphertexts verifyCommand_selector;
    modify (set_request reqId messageId);;
    emit (VerificationRequested messageId)).

(** A write to one field of [decryptedMessages[messageId]]. *)
Definition update_dMsg (messageId : Z) (f : DecryptedCanMessage -> DecryptedCanMessage) : M unit :=
  modify (fun s => set_decryptedMessage messageId (f (decryptedAt s messageId)) s).

Definition verifyCommand (e : env) (requestId : Z) (cleartexts proof : bytes) : M unit :=
  messageId ← gets (fun s => requestAt s requestId);
  require (negb (messageId =? 0)) "Invalid request";;
  dMsg ← gets (fun s => decryptedAt s messageId);
  require (negb (isVerified dMsg)) "Already verified";;
  FHE_checkSignatures e requestId cleartexts proof;;
  '(command', sourceEcu', targetEcu') ← lift_decode (abi_decode_strings cleartexts);
  update_dMsg messageId (with_command command');;
  update_dMsg messageId (with_sourceEcu sourceEcu');;
  update_dMsg messageId (with_targetEcu targetEcu');;
  update_dMsg messageId (with_isVerified true);;
  src ← gets (fun s => sourceEcu (decryptedAt s messageId));
  stats ← gets (fun s => statsAt s src);
  created ← (if negb (FHE_isInitialized stats)
             then modify (set_ecuStats src (FHE_asEuint32 0));;
                  modify (push_ecuList src);;
                  ret [FHE_asEuint32 0]
             else ret []);
  stats' ← gets (fun s => statsAt s src);
  let one := FHE_asEuint32 1 in
  sum ← FHE_add_checked e (one :: created) stats' one;
  modify (set_ecuStats src sum);;
  emit (MessageVerified messageId).

Definition getDecryptedMessage (messageId : Z) : M (string * string * string * bool) :=
  m ← gets (fun s => decryptedAt s messageId);
  mret (command m, sourceEcu m, targetEcu m, isVerified m).

Definition getEncryptedEcuStats (ecuId : string) : M euint32 :=
  gets (fun s => statsAt s ecuId).

Definition bytes32ToUint (b : Z) : Z := b.

Definition requestEcuStatsDecryption (e : env) (ecuId : string) : M unit :=
  stats ← gets (fun s => statsAt s ecuId);
  require (FHE_isInitialized stats) "ECU not found";;
  let ciphertexts := [FHE_toBytes32 stats] in
  reqId ← FHE_requestDecryption e ciphertexts decryptEcuStats_selector;
  modify (set_request reqId (bytes32ToUint (keccak256 (abi_encodePacked ecuId)))).

(** The scan of [getEcuFromHash] over [ecuList], from index 0. *)
Fixpoint scanEcuList (l : list string) (hash : Z) : M string :=
  match l with
  | [] => fail (Revert "ECU not found")
  | ecu :: rest =>
      if bytes32ToUint (keccak256 (abi_encodePacked ecu)) =? hash
      then ret ecu
      else scanEcuList rest hash
  end.

Definition getEcuFromHash (hash : Z) : M string :=
  l ← gets ecuList;
  scanEcuList l hash.

Definition decryptEcuStats (e : env) (requestId : Z) (cleartexts proof : bytes) : M unit :=
  ecuHash ← gets (fun s => requestAt s requestId);
  ecuId ← getEcuFromHash ecuHash;
  FHE_checkSignatures e requestId cleartexts proof;;
  stats ← lift_decode (abi_decode_uint32 cleartexts);
  ret tt.

Definition validateCommand (command sourceEcu targetEcu : string) : bool := true.

(** The loop of [calculateEcuTrustScore]: [i] runs up to [messageCount]
    with a checked increment; [fuel] bounds the number of iterations. *)
Fixpoint trustLoop (fuel : nat) (ecuId : string) (i validCount totalCount : Z) : M (Z * Z) :=
  mc ← gets messageCount;
  if i <=? mc then
    match fuel with
    | O => fail OutOfGas
    | S fuel' =>
        d ← gets (fun s => decryptedAt s i);
        '(validCount', totalCount') ←
          (if isVerified d &&
              (keccak256 (abi_encodePacked (sourceEcu d)) =? keccak256 (abi_encodePacked ecuId))
           then
             totalCount' ← checked_add totalCount 1;
             if validateCommand (command d) (sourceEcu d) (targetEcu d)
             then validCount' ← checked_add validCount 1; mret (validCount', totalCount')
             else mret (validCount, totalCount')
           else mret (validCount, totalCount));
        i' ← checked_add i 1;
        trustLoop fuel' ecuId i' validCount' totalCount'
    end
  else mret (validCount, totalCount).

Definition calculateEcuTrustScore (ecuId : string) : M Z :=
  mc ← gets messageCount;
  '(validCount, totalCount) ← trustLoop (Z.to_nat mc) ecuId 1 0 0;
  if 0 <? totalCount
  then p ← checked_mul validCount 100; checked_div p totalCount
  else mret 100.

(** ** Transactions *)

Inductive call :=
| SubmitEncryptedCanMessage (encryptedCommand encryptedSourceEcu encryptedTargetEcu : euint32)
| RequestCommandVerification (messageId : Z)
| VerifyCommand (requestId : Z) (cleartexts proof : bytes)
| RequestEcuStatsDecryption (ecuId : string)
| DecryptEcuStats (requestId : Z) (cleartexts proof : bytes).

Definition exec (e : env) (c : call) : M unit :=
  match c with
  | SubmitEncryptedCanMessage a b t => submitEncryptedCanMessage e a b t
  | RequestCommandVerification i => requestCommandVerification e i
  | VerifyCommand r ct pf => verifyCommand e r ct pf
  | RequestEcuStatsDecryption ecu => requestEcuStatsDecryption e ecu
  | DecryptEcuStats r ct pf => decryptEcuStats e r ct pf
  end.

(** The storage after a transaction: a failed call changes nothing. *)
Definition transact (e : env) (c : call) (s : storage) : storage :=
  match exec e c s with
  | Success _ s' _ => s'
  | Failure _ => s
  end.

Inductive reachable : storage -> Prop :=
| reachable_initial : reachable initial
| reachable_transact s e c : reachable s -> reachable (transact e c s).

(** [steps s s']: [s'] is [s] after some transactions. *)
Inductive steps (s : storage) : storage -> Prop :=
| steps_refl : steps s s
| steps_transact s' e c : steps s s' -> steps s (transact e c s').

End Contract.

(** ** The read-only analytics *)

Section Analytics.
Context `{EVMBuiltins}.

(** The inner loop of [detectAnomalousCommands]: [isSafe] becomes true at
    the first known-safe command with the hash of [cmd], and the loop
    breaks. *)
Fixpoint safeScan (cmd : string) (knownSafeCommands : list string) : bool :=
  match knownSafeCommands with
  | [] => false
  | known :: rest =>
      if keccak256 (abi_encodePacked cmd) =? keccak256 (abi_encodePacked known)
      then true
      else safeScan cmd rest
  end.

(** The outer loop: it returns [true] at the first verified message of
    [ecuId] whose command is not known to be safe. *)
Fixpoint anomalyLoop (fuel : nat) (ecuId : string) (knownSafeCommands : list string)
    (i : Z) : M bool :=
  mc ← gets messageCount;
  if i <=? mc then
    match fuel with
    | O => fail OutOfGas
    | S fuel' =>
        d ← gets (fun s => decryptedAt s i);
        if isVerified d &&
           (keccak256 (abi_encodePacked (sourceEcu d)) =? keccak256 (abi_encodePacked ecuId))
        then
          let isSafe := safeScan (command d) knownSafeCommands in
          if negb isSafe
          then mret true
          else i' ← checked_add i 1; anomalyLoop fuel' ecuId knownSafeCommands i'
        else i' ← checked_add i 1; anomalyLoop fuel' ecuId knownSafeCommands i'
    end
  else mret false.

Definition detectAnomalousCommands (ecuId : string) (knownSafeCommands : list string)
    : M bool :=
  mc ← gets messageCount;
  anomalyLoop (Z.to_nat mc) ecuId knownSafeCommands 1.

(** A loop [for (uint256 i = 1; i <= messageCount; i++)] without early
    exit, threading the locals [acc] through [body]. *)
Fixpoint forMessages {A} (fuel : nat) (body : Z -> A -> M A) (i : Z) (acc : A) : M A :=
  mc ← gets messageCount;
  if i <=? mc then
    match fuel with
    | O => fail OutOfGas
    | S fuel' =>
        acc' ← body i acc;
        i' ← checked_add i 1;
        forMessages fuel' body i' acc'
    end
  else mret acc.

(** [arr[index] = v] on a memory array: out of bounds is [Panic 0x32]. *)
Definition store_at (arr : list string) (index : Z) (v : string) : M (list string) :=
  if (0 <=? index) && (index <? Z.of_nat (length arr))
  then ret (<[Z.to_nat index := v]> arr)
  else fail (Panic 50).

Definition suspicious (d : DecryptedCanMessage) : bool :=
  isVerified d && negb (validateCommand (command d) (sourceEcu d) (targetEcu d)).

Definition identifySuspiciousEcuPairs : M (list string) :=
  mc ← gets messageCount;
  count ← forMessages (Z.to_nat mc)
             (fun i count =>
                d ← gets (fun s => decryptedAt s i);
                if suspicious d then checked_add count 1 else mret count)
             1 0;
  len ← checked_mul count 2;
  let suspiciousPairs := replicate (Z.to_nat len) "" in
  '(index, suspiciousPairs) ←
      forMessages (Z.to_nat mc)
        (fun i '(index, suspiciousPairs) =>
           d ← gets (fun s => decryptedAt s i);
           if suspicious d
           then
             suspiciousPairs ← store_at suspiciousPairs index (sourceEcu d);
             index1 ← checked_add index 1;
             suspiciousPairs ← store_at suspiciousPairs index1 (targetEcu d);
             index ← checked_add index 2;
             mret (index, suspiciousPairs)
           else mret (index, suspiciousPairs))
        1 (0, suspiciousPairs);
  mret suspiciousPairs.

Definition enforceSecurityPolicy (ecuId policy : string) : bool := true.

End Analytics.

(** ** A reference instance of the external interfaces

    Used to run the contract on concrete inputs: handles that carry their
    cleartext under a tag for trivial encryptions and another for sums, a polynomial hash, and the head/tail layout of the ABI for
    three strings. *)
Module Mock.

Definition asEuint32 (v : Z) : euint32 := 2 ^ 32 + v mod 2 ^ 32.
Definition add (a b : euint32) : euint32 := 2 ^ 33 + (a + b) mod 2 ^ 32.

Definition byteZ (b : Byte.byte) : Z := Z.of_N (Byte.to_N b).
Definition Zbyte (n : Z) : Byte.byte :=
  default Byte.x00 (Byte.of_N (Z.to_N (n mod 256))).

Definition hash (bs : bytes) : Z :=
  fold_left (fun h b => (h * 257 + byteZ b + 1) mod 2 ^ 256) bs 7.

(** Big-endian words of 32 bytes. *)
Definition word_of (bs : bytes) : Z := fold_left (fun a b => a * 256 + byteZ b) bs 0.
Definition be32 (n : Z) : bytes :=
  map (fun k => Zbyte (n / 256 ^ (31 - Z.of_nat k))) (seq 0 32).

Definition read_word (bs : bytes) (off : Z) : option Z :=
  if (0 <=? off) && (off + 32 <=? Z.of_nat (length bs))
  then Some (word_of (take 32 (drop (Z.to_nat off) bs)))
  else None.

Definition read_string (bs : bytes) (off : Z) : option string :=
  len ← read_word bs off;
  if off + 32 + len <=? Z.of_nat (length bs)
  then Some (String.string_of_list_byte (take (Z.to_nat len) (drop (Z.to_nat (off + 32)) bs)))
  else None.

Definition decode_strings (bs : bytes) : option (string * string * string) :=
  o1 ← read_word bs 0; o2 ← read_word bs 32; o3 ← read_word bs 64;
  a ← read_string bs o1; b ← read_string bs o2; c ← read_string bs o3;
  Some (a, b, c).

Definition decode_uint32 (bs : bytes) : option Z :=
  w ← read_word bs 0;
  if w <? 2 ^ 32 then Some w else None.

Definition padded (x : string) : bytes :=
  let data := String.list_byte_of_string x in
  let n := Z.of_nat (length data) in
  be32 n ++ data ++ replicate (Z.to_nat ((32 - n mod 32) mod 32)) Byte.x00.

Definition encode_strings (a b c : string) : bytes :=
  let ta := padded a in
  let tb := padded b in
  let tc := padded c in
  be32 96 ++ be32 (96 + Z.of_nat (length ta))
          ++ be32 (96 + Z.of_nat (length ta) + Z.of_nat (length tb))
          ++ ta ++ tb ++ tc.

Definition fhe : FHELib := {| FHE_asEuint32 := asEuint32; FHE_add := add |}.
Definition evm : EVMBuiltins :=
  {| keccak256 := hash;
     abi_decode_strings := decode_strings;
     abi_decode_uint32 := decode_uint32 |}.

(** A callback payload and the environments of the scenarios below. *)
Definition torque : bytes := encode_strings "SET_TORQUE" "ECU_A" "ECU_B".
Definition brake : bytes := encode_strings "BRAKE" "ECU_A" "ECU_C".
Definition alice : address := 10.
Definition oracle : address := 99.
(** An environment whose access-control list lets the contract use every
    initialised handle, and one whose list holds the handles users handed
    in (below [2 ^ 32] here) and none the coprocessor computed. *)
Definition at_time (who : address) (t r : Z) : env := mkEnv who t r true (fun _ => true).
Definition user_acl (h : euint32) : bool := h <? 2 ^ 32.
Definition as_granted (who : address) (t r : Z) : env := mkEnv who t r true user_acl.

Definition tx : env -> call -> storage -> storage := @transact fhe evm.

(** One message, requested twice (request ids 7 and 8), verified through 7. *)
Definition s1 := tx (at_time alice 1000 0) (SubmitEncryptedCanMessage 11 12 13) initial.
Definition s2 := tx (at_time alice 1001 7) (RequestCommandVerification 1) s1.
Definition s3 := tx (at_time alice 1002 8) (RequestCommandVerification 1) s2.
Definition s4 := tx (at_time oracle 1003 0) (VerifyCommand 7 torque []) s3.

(** A second message from the same ECU, verified through request id 9. *)
Definition s5 := tx (at_time alice 1004 0) (SubmitEncryptedCanMessage 21 22 23) s4.
Definition s6 := tx (at_time alice 1005 9) (RequestCommandVerification 2) s5.
Definition s7 := tx (at_time oracle 1006 0) (VerifyCommand 9 brake []) s6.

(** A request for the counter of ECU_A (request id 20). *)
Definition s8 := tx (at_time alice 1007 20) (RequestEcuStatsDecryption "ECU_A") s7.

(** The same first message under an access-control list that holds the
    three submitted handles and no sum: submitted, requested (request id
    7), verified, and followed by a second submission and a second,
    refused, callback on the same request. *)
Definition g1 := tx (as_granted alice 1000 0) (SubmitEncryptedCanMessage 11 12 13) initial.
Definition g2 := tx (as_granted alice 1001 7) (RequestCommandVerification 1) g1.
Definition g3 := tx (as_granted oracle 1002 0) (VerifyCommand 7 torque []) g2.
Definition g4 := tx (as_granted alice 1003 0) (SubmitEncryptedCanMessage 21 22 23) g3.

(** The second message, of the same ECU, requested under request id 9. *)
Definition g6 := tx (as_granted alice 1005 9) (RequestCommandVerification 2) g4.

End Mock.

(** ** Counting verified messages, as the specification words it *)

(** Message [i] is verified and its source ECU is [ecuId]. *)
Definition fromEcu (s : storage) (ecuId : string) (i : Z) : bool :=
  isVerified (decryptedAt s i) && bool_decide (sourceEcu (decryptedAt s i) = ecuId).

Definition passes (s : storage) (i : Z) : bool :=
  validateCommand (command (decryptedAt s i)) (sourceEcu (decryptedAt s i))
                  (targetEcu (decryptedAt s i)).

(** The [n] verified messages of an ECU, and the [k] of them that pass
    [validateCommand]. *)
Definition verifiedFrom (s : storage) (ecuId : string) : list Z :=
  List.filter (fromEcu s ecuId) (seqZ 1 (messageCount s)).
Definition passing (s : storage) (ecuId : string) : list Z :=
  List.filter (passes s) (verifiedFrom s ecuId).

(** The contract compares ECU names by their hashes; no stored source ECU
    collides with [ecuId]. *)
Definition no_collision `{EVMBuiltins} (s : storage) (ecuId : string) : Prop :=
  forall i, 1 <= i <= messageCount s ->
    isVerified (decryptedAt s i) = true ->
    keccak256 (abi_encodePacked (sourceEcu (decryptedAt s i)))
      = keccak256 (abi_encodePacked ecuId) ->
    sourceEcu (decryptedAt s i) = ecuId.

(** The registry lists exactly the ECUs that have a counter, each once. *)
Definition registry_ok (s : storage) : Prop :=
  NoDup (ecuList s)
  /\ forall ecu, ecu ∈ ecuList s <-> FHE_isInitialized (statsAt s ecu) = true.

(** [n] submissions in a row, and the storage whose counter has reached the
    largest [uint256]. *)
Definition submit_n (n : nat) : storage :=
  Nat.iter n (Mock.tx (Mock.at_time Mock.alice 0 0) (SubmitEncryptedCanMessage 0 0 0)) initial.
Definition full : storage := submit_n (Z.to_nat MAX_UINT256).


(** ** Closed forms of the three state-changing calls *)

Section ClosedForms.
Context `{FHELib} `{EVMBuiltins}.

(** The storage [submitEncryptedCanMessage] leaves behind. *)
Definition submitted (e : env) (a b c : euint32) (s : storage) : storage :=
  let newId := messageCount s + 1 in
  mkStorage newId
    (<[newId := mkEncrypted newId a b c (block_timestamp e)]> (encryptedMessages s))
    (<[newId := zeroDecrypted]> (decryptedMessages s))
    (encryptedEcuStats s) (ecuList s) (requestToMessageId s).

(** The storage a successful [verifyCommand] leaves behind. *)
Definition verified (messageId : Z) (cmd src tgt : string) (s : storage) : storage :=
  let old := statsAt s src in
  mkStorage (messageCount s) (encryptedMessages s)
    (<[messageId := mkDecrypted cmd src tgt true]> (decryptedMessages s))
    (<[src := FHE_add (if FHE_isInitialized old then old else FHE_asEuint32 0)
                      (FHE_asEuint32 1)]> (encryptedEcuStats s))
    (if FHE_isInitialized old then ecuList s else ecuList s ++ [src])
    (requestToMessageId s).

(** The library lets [requestCommandVerification] send the three handles of
    a record to the oracle. *)
Definition request_allowed (e : env) (m : EncryptedCanMessage) : bool :=
  persistently_allowed e (encryptedCommand m)
  && persistently_allowed e (encryptedSourceEcu m)
  && persistently_allowed e (encryptedTargetEcu m).

(** The library lets [verifyCommand] increment the counter of [src]: the
    counter is created in the same call, or the contract is allowed on the
    stored one. *)
Definition counter_usable (e : env) (s : storage) (src : string) : bool :=
  negb (FHE_isInitialized (statsAt s src))
  || isAllowed e [FHE_asEuint32 1] (statsAt s src).

(** The contract never calls [FHE.allow] or [FHE.allowThis]: no handle the
    coprocessor computed for it as a sum is on the access-control list of
    a later call. *)
Definition acl_sound (e : env) : Prop :=
  forall a b, acl_allowed e (FHE_add a b) = false.



(** Every transaction either leaves the storage alone, or is one of the
    three kinds of write. *)
Inductive effect (e : env) (c : call) (s : storage) : storage -> Prop :=
| effect_none : effect e c s s
| effect_submit a b t :
    c = SubmitEncryptedCanMessage a b t ->
    messageCount s + 1 <= MAX_UINT256 ->
    effect e c s (submitted e a b t s)
| effect_request r i :
    (c = RequestCommandVerification i /\ isVerified (decryptedAt s i) = false) \/
    (exists ecu, c = RequestEcuStatsDecryption ecu) ->
    effect e c s (set_request r i s)
| effect_verify requestId cleartexts proof cmd src tgt :
    c = VerifyCommand requestId cleartexts proof ->
    requestAt s requestId <> 0 ->
    isVerified (decryptedAt s (requestAt s requestId)) = false ->
    effect e c s (verified (requestAt s requestId) cmd src tgt s).

End ClosedForms.

(** ** Further notions used by the properties of the other functions *)

(** Message [i] is a verified message of [ecuId] whose command is not among
    the known-safe ones. *)
Definition anomalous (s : storage) (ecuId : string) (knownSafeCommands : list string)
    (i : Z) : bool :=
  fromEcu s ecuId i && negb (bool_decide (command (decryptedAt s i) ∈ knownSafeCommands)).

(** No stored command collides with a known-safe command under the hash. *)
Definition no_command_collision `{EVMBuiltins} (s : storage)
    (knownSafeCommands : list string) : Prop :=
  forall i known, 1 <= i <= messageCount s -> known ∈ knownSafeCommands ->
    keccak256 (abi_encodePacked (command (decryptedAt s i)))
      = keccak256 (abi_encodePacked known) ->
    command (decryptedAt s i) = known.

Section Tally.
Context `{FHELib} `{EVMBuiltins}.

(** The source ECU a transaction verifies a message of, if it does. *)
Definition verifiedSource (e : env) (c : call) (s : storage) : option string :=
  match c with
  | VerifyCommand requestId cleartexts proof =>
      match verifyCommand e requestId cleartexts proof s,
            abi_decode_strings cleartexts with
      | Success _ _ _, Some (_, src, _) => Some src
      | _, _ => None
      end
  | _ => None
  end.

(** [tallied s n]: [s] is reachable by a run in which [n ecu] callbacks
    verified a message of [ecu]. *)
Inductive tallied : storage -> (string -> Z) -> Prop :=
| tallied_initial : tallied initial (fun _ => 0)
| tallied_transact s n e c :
    tallied s n ->
    tallied (transact e c s)
            (fun ecu => if decide (verifiedSource e c s = Some ecu) then n ecu + 1 else n ecu).

End Tally.

(** Further runs on the reference instance: a message of another ECU with
    a command of its own. *)
Module MoreRuns.
Import Mock.

Definition hashA : Z := hash (abi_encodePacked "ECU_A").

Definition horn : bytes := encode_strings "HORN" "ECU_D" "ECU_B".
Definition s9 := tx (at_time alice 1009 0) (SubmitEncryptedCanMessage 31 32 33) s8.
Definition s10 := tx (at_time alice 1010 30) (RequestCommandVerification 3) s9.
Definition s11 := tx (at_time oracle 1011 0) (VerifyCommand 30 horn []) s10.

(** The cleartext a mock handle carries. *)
Definition decrypt (h : euint32) : Z := h mod 2 ^ 32.

End MoreRuns.

(** * Properties *)

Ltac run :=
  unfold mbind, M_bind, bind, mret, M_ret, ret, gets, modify, emit, fail, require,
         checked_add, checked_mul, checked_div, lift_decode, onlyAuthorized,
         FHE_requestDecryption, FHE_checkSignatures, FHE_add_checked, update_dMsg; simpl.

Section Properties.
Context `{FHELib} `{EVMBuiltins}.

Lemma at_key_insert_eq {K V} `{Countable K} (d v : V) (m : gmap K V) k :
  at_key d (<[k := v]> m) k = v.
Proof. unfold at_key. by rewrite lookup_insert_eq. Qed.

Lemma at_key_insert_ne {K V} `{Countable K} (d v : V) (m : gmap K V) k k' :
  k ≠ k' -> at_key d (<[k := v]> m) k' = at_key d m k'.
Proof. intros. unfold at_key. by rewrite lookup_insert_ne. Qed.

Lemma submit_closed e a b c s :
  submitEncryptedCanMessage e a b c s =
    if messageCount s + 1 <=? MAX_UINT256
    then Success tt (submitted e a b c s)
                 [MessageReceived (messageCount s + 1) (block_timestamp e)]
    else Failure (Panic 17).
Proof.
  unfold submitEncryptedCanMessage. run.
  destruct (messageCount s + 1 <=? MAX_UINT256); reflexivity.
Qed.

Lemma request_closed e messageId s :
  requestCommandVerification e messageId s =
    if isVerified (decryptedAt s messageId)
    then Failure (Revert "Already verified")
    else if request_allowed e (encryptedAt s messageId)
    then Success tt (set_request (oracle_requestId e) messageId s)
                 [VerificationRequested messageId]
    else Failure SenderNotAllowed.
Proof.
  unfold requestCommandVerification, request_allowed, FHE_toBytes32. run.
  destruct (isVerified (decryptedAt s messageId)); [reflexivity|]. simpl.
  rewrite andb_true_r, andb_assoc.
  destruct (_ && _ && _); reflexivity.
Qed.

Lemma verify_closed e requestId cleartexts proof s :
  verifyCommand e requestId cleartexts proof s =
    let messageId := requestAt s requestId in
    if messageId =? 0 then Failure (Revert "Invalid request")
    else if isVerified (decryptedAt s messageId) then Failure (Revert "Already verified")
    else if signatures_ok e then
      match abi_decode_strings cleartexts with
      | Some (cmd, src, tgt) =>
          if counter_usable e s src
          then Success tt (verified messageId cmd src tgt s)
                       [DecryptionFulfilled requestId; MessageVerified messageId]
          else Failure ACLNotAllowed
      | None => Failure AbiDecodeError
      end
    else Failure InvalidKMSSignatures.
Proof.
  unfold verifyCommand. run.
  destruct (requestAt s requestId =? 0); [reflexivity|]. simpl.
  destruct (isVerified (decryptedAt s (requestAt s requestId))); [reflexivity|]. simpl.
  destruct (signatures_ok e); [|reflexivity]. simpl.
  destruct (abi_decode_strings cleartexts) as [[[cmd src] tgt]|]; [|reflexivity]. simpl.
  unfold decryptedAt, statsAt, set_decryptedMessage, set_ecuStats, push_ecuList; simpl.
  rewrite !at_key_insert_eq. simpl.
  unfold counter_usable, statsAt.
  destruct (FHE_isInitialized (at_key 0 (encryptedEcuStats s) src)) eqn:Hinit; simpl.
  - unfold isAllowed at 2. rewrite bool_decide_eq_true_2 by apply list_elem_of_here.
    simpl. rewrite andb_true_r.
    destruct (isAllowed e [FHE_asEuint32 1] (at_key 0 (encryptedEcuStats s) src));
      [|reflexivity]. simpl.
    unfold verified, statsAt. simpl. rewrite Hinit. rewrite !insert_insert_eq. reflexivity.
  - rewrite !at_key_insert_eq. unfold isAllowed.
    rewrite !bool_decide_eq_true_2
      by (first [apply list_elem_of_here | apply list_elem_of_further, list_elem_of_here]).
    simpl.
    unfold verified, statsAt. simpl. rewrite Hinit.
    rewrite !insert_insert_eq. reflexivity.
Qed.

Lemma requestStats_closed e ecuId s :
  requestEcuStatsDecryption e ecuId s =
    if FHE_isInitialized (statsAt s ecuId)
    then if persistently_allowed e (statsAt s ecuId)
         then Success tt (set_request (oracle_requestId e)
                            (keccak256 (abi_encodePacked ecuId)) s) []
         else Failure SenderNotAllowed
    else Failure (Revert "ECU not found").
Proof.
  unfold requestEcuStatsDecryption, FHE_toBytes32. run.
  destruct (FHE_isInitialized (statsAt s ecuId)); [|reflexivity]. simpl.
  rewrite andb_true_r.
  destruct (persistently_allowed e (statsAt s ecuId)); reflexivity.
Qed.

Lemma scanEcuList_pure l hash s a s' evs :
  scanEcuList l hash s = Success a s' evs -> s' = s /\ evs = [].
Proof.
  induction l as [|ecu rest IH]; simpl; [discriminate|].
  destruct (_ =? hash); [|exact IH].
  unfold ret. intros [= _ <- <-]. auto.
Qed.

Lemma decryptEcuStats_pure e requestId cleartexts proof s a s' evs :
  decryptEcuStats e requestId cleartexts proof s = Success a s' evs ->
  s' = s /\ evs = [DecryptionFulfilled requestId].
Proof.
  unfold decryptEcuStats, getEcuFromHash. run.
  destruct (scanEcuList (ecuList s) (requestAt s requestId) s) as [ecu s1 e1|] eqn:Hscan;
    [|discriminate].
  apply scanEcuList_pure in Hscan as [-> ->]. simpl.
  destruct (signatures_ok e); simpl; [|discriminate].
  destruct (abi_decode_uint32 cleartexts); simpl; [|discriminate].
  intros [= _ <- <-]. auto.
Qed.

Lemma transact_effect e c s : effect e c s (transact e c s).
Proof.
  unfold transact. destruct c as [a b t|i|r ct pf|ecu|r ct pf]; simpl.
  - rewrite submit_closed. destruct (_ <=? _) eqn:Hle; [|constructor].
    eapply effect_submit; [reflexivity|lia].
  - rewrite request_closed. destruct (isVerified _) eqn:Hv; [constructor|].
    destruct (request_allowed e _); [|constructor].
    apply effect_request. auto.
  - rewrite verify_closed. cbv zeta.
    destruct (_ =? 0) eqn:Hz; [constructor|].
    destruct (isVerified _) eqn:Hv; [constructor|].
    destruct (signatures_ok e); [|constructor].
    destruct (abi_decode_strings ct) as [[[cmd src] tgt]|]; [|constructor].
    destruct (counter_usable e s src); [|constructor].
    eapply effect_verify; [reflexivity|lia|assumption].
  - rewrite requestStats_closed. destruct (FHE_isInitialized _); [|constructor].
    destruct (persistently_allowed e _); [|constructor].
    apply effect_request. eauto.
  - destruct (decryptEcuStats e r ct pf s) as [a s' evs|] eqn:Hd; [|constructor].
    apply decryptEcuStats_pure in Hd as [-> _]. constructor.
Qed.

(** *** Invariants of the reachable storages *)

Lemma decryptedAt_submitted e a b t s i :
  decryptedAt (submitted e a b t s) i =
    if decide (i = messageCount s + 1) then zeroDecrypted else decryptedAt s i.
Proof.
  unfold decryptedAt, submitted; simpl. case_decide as Hi.
  - subst. apply at_key_insert_eq.
  - apply at_key_insert_ne. congruence.
Qed.

Lemma decryptedAt_verified messageId cmd src tgt s i :
  decryptedAt (verified messageId cmd src tgt s) i =
    if decide (i = messageId) then mkDecrypted cmd src tgt true else decryptedAt s i.
Proof.
  unfold decryptedAt, verified; simpl. case_decide as Hi.
  - subst. apply at_key_insert_eq.
  - apply at_key_insert_ne. congruence.
Qed.

Lemma messageCount_bounds s : reachable s -> 0 <= messageCount s <= MAX_UINT256.
Proof.
  induction 1 as [|s e c _ IH]; [simpl; unfold MAX_UINT256; lia|].
  destruct (transact_effect e c s); simpl; lia.
Qed.

Lemma zero_never_verified s : reachable s -> isVerified (decryptedAt s 0) = false.
Proof.
  induction 1 as [|s e c Hs IH]; [reflexivity|].
  pose proof (messageCount_bounds s Hs) as Hmc.
  destruct (transact_effect e c s) as [|a b t _ _|r i _|r ct pf cmd src tgt _ Hne _].
  - exact IH.
  - rewrite decryptedAt_submitted. case_decide; [reflexivity|exact IH].
  - exact IH.
  - rewrite decryptedAt_verified. case_decide; [congruence|exact IH].
Qed.

Lemma unverified_empty s i :
  reachable s -> isVerified (decryptedAt s i) = false -> decryptedAt s i = zeroDecrypted.
Proof.
  intros Hs. revert i. induction Hs as [|s e c Hs IH]; intros i; [reflexivity|].
  destruct (transact_effect e c s) as [|a b t _ _|r j _|r ct pf cmd src tgt _ _ _].
  - apply IH.
  - rewrite decryptedAt_submitted. case_decide; [reflexivity|apply IH].
  - apply IH.
  - rewrite decryptedAt_verified. case_decide; [discriminate|apply IH].
Qed.

(** A verified record of a submitted id is frozen. *)
Lemma verified_frozen s s' i :
  steps s s' ->
  i <= messageCount s -> isVerified (decryptedAt s i) = true ->
  decryptedAt s' i = decryptedAt s i /\ messageCount s <= messageCount s'.
Proof.
  intros Hst Hi Hv. induction Hst as [|s' e c _ [IHd IHm]]; [split; [reflexivity|lia]|].
  destruct (transact_effect e c s') as [|a b t _ _|r j _|r ct pf cmd src tgt _ _ Hun].
  - auto.
  - rewrite decryptedAt_submitted. simpl. split; [|lia].
    case_decide; [lia|exact IHd].
  - auto.
  - rewrite decryptedAt_verified. simpl. split; [|exact IHm].
    case_decide as Hj; [|exact IHd]. subst i. congruence.
Qed.

(** *** The claims *)

(** C1: in a reachable storage, a [verifyCommand] whose request id maps to a
    message id that is already verified reverts with "Already verified",
    and the storage stays as it was. *)
Theorem verifyCommand_already_verified s e messageId requestId cleartexts proof :
  reachable s ->
  isVerified (decryptedAt s messageId) = true ->
  requestAt s requestId = messageId ->
  verifyCommand e requestId cleartexts proof s = Failure (Revert "Already verified")
  /\ transact e (VerifyCommand requestId cleartexts proof) s = s.
Proof.
  intros Hs Hv Hr.
  assert (Hnz : messageId <> 0).
  { intros ->. rewrite (zero_never_verified s Hs) in Hv. discriminate. }
  assert (Hrun : verifyCommand e requestId cleartexts proof s
                 = Failure (Revert "Already verified")).
  { rewrite verify_closed. cbv zeta. rewrite Hr.
    destruct (Z.eqb_spec messageId 0); [contradiction|]. by rewrite Hv. }
  split; [exact Hrun|]. unfold transact; simpl. by rewrite Hrun.
Qed.

(** C2 (as the code has it): when two distinct request ids map to one
    message id and a callback through the first has succeeded, a callback
    through the second is rejected with "Already verified" and changes
    nothing. *)
Theorem duplicate_request_rejected s e1 e2 r1 r2 ct1 pf1 ct2 pf2 s1 evs :
  r1 <> r2 ->
  requestAt s r1 = requestAt s r2 ->
  verifyCommand e1 r1 ct1 pf1 s = Success tt s1 evs ->
  isVerified (decryptedAt s1 (requestAt s r1)) = true
  /\ requestAt s1 r2 = requestAt s r1
  /\ verifyCommand e2 r2 ct2 pf2 s1 = Failure (Revert "Already verified")
  /\ transact e2 (VerifyCommand r2 ct2 pf2) s1 = s1.
Proof.
  intros _ Hsame. rewrite verify_closed. cbv zeta.
  destruct (Z.eqb_spec (requestAt s r1) 0) as [|Hnz]; [discriminate|].
  destruct (isVerified (decryptedAt s (requestAt s r1))); [discriminate|].
  destruct (signatures_ok e1); [|discriminate].
  destruct (abi_decode_strings ct1) as [[[cmd src] tgt]|]; [|discriminate].
  destruct (counter_usable _ s src); [|discriminate].
  intros [= <- _].
  assert (Hv : isVerified (decryptedAt (verified (requestAt s r1) cmd src tgt s)
                                       (requestAt s r1)) = true).
  { rewrite decryptedAt_verified. by rewrite decide_True. }
  assert (Hr : requestAt (verified (requestAt s r1) cmd src tgt s) r2 = requestAt s r1).
  { unfold requestAt, verified; simpl. symmetry. exact Hsame. }
  assert (Hrun : verifyCommand e2 r2 ct2 pf2 (verified (requestAt s r1) cmd src tgt s)
                 = Failure (Revert "Already verified")).
  { rewrite verify_closed. cbv zeta. rewrite Hr.
    destruct (Z.eqb_spec (requestAt s r1) 0); [contradiction|]. by rewrite Hv. }
  repeat split; [exact Hv|exact Hr|exact Hrun|].
  unfold transact; simpl. by rewrite Hrun.
Qed.

(** X19: whatever the library lets through: in a reachable storage an
    unverified record is empty; a transaction changes the record of an id
    only when it is a successful [verifyCommand] for that id (false to
    true) or the submission that assigns that id (which writes the empty
    record); and the verified record of a submitted id never changes
    again. *)
Theorem decrypted_record_lifecycle s :
  reachable s ->
  (forall i, isVerified (decryptedAt s i) = false -> decryptedAt s i = zeroDecrypted)
  /\ (forall e c i,
        decryptedAt (transact e c s) i <> decryptedAt s i ->
        (exists r ct pf, c = VerifyCommand r ct pf /\ requestAt s r = i
                         /\ isVerified (decryptedAt s i) = false
                         /\ isVerified (decryptedAt (transact e c s) i) = true)
        \/ (exists a b t, c = SubmitEncryptedCanMessage a b t
                          /\ i = messageCount s + 1
                          /\ decryptedAt (transact e c s) i = zeroDecrypted))
  /\ (forall s' i,
        steps s s' -> 1 <= i <= messageCount s ->
        isVerified (decryptedAt s i) = true ->
        isVerified (decryptedAt s' i) = true /\ decryptedAt s' i = decryptedAt s i).
Proof.
  intros Hs. split; [|split].
  - intros i. by apply unverified_empty.
  - intros e c i.
    destruct (transact_effect e c s) as [|a b t -> _|r j _|r ct pf cmd src tgt -> _ Hun].
    + congruence.
    + rewrite decryptedAt_submitted. case_decide as Hi; [|congruence].
      intros _. right. exists a, b, t. auto.
    + unfold decryptedAt, set_request; simpl. congruence.
    + rewrite decryptedAt_verified. case_decide as Hi; [|congruence].
      intros _. left. exists r, ct, pf. subst i. auto.
  - intros s' i Hst [_ Hi] Hv.
    destruct (verified_frozen s s' i Hst Hi Hv) as [Heq _].
    rewrite Heq. auto.
Qed.

Lemma encrypted_outside s i :
  reachable s -> ~ (1 <= i <= messageCount s) -> encryptedAt s i = zeroEncrypted.
Proof.
  intros Hs. revert i. induction Hs as [|s e c Hs IH]; intros i Hi; [reflexivity|].
  pose proof (messageCount_bounds s Hs) as Hmc.
  destruct (transact_effect e c s) as [|a b t _ _|r j _|r ct pf cmd src tgt _ _ _];
    try (by apply IH).
  simpl in Hi. unfold encryptedAt, submitted; simpl.
  rewrite at_key_insert_ne by lia. apply IH. lia.
Qed.


(** C5 (as the code has it): [requestCommandVerification] reverts with
    "Already verified" when the message is verified.  Otherwise the
    contract checks nothing more, neither the id nor an outstanding
    request, and the outcome is the library's: the call succeeds,
    recording the oracle's request id for the message id, when the
    access-control list lets the contract use the three stored handles,
    and reverts with [SenderNotAllowed] when it does not; the zero handles
    of an id that was never submitted are refused. *)
Theorem requestCommandVerification_outcome e messageId s :
  (isVerified (decryptedAt s messageId) = true ->
     requestCommandVerification e messageId s = Failure (Revert "Already verified"))
  /\ (isVerified (decryptedAt s messageId) = false ->
      request_allowed e (encryptedAt s messageId) = true ->
      requestCommandVerification e messageId s
        = Success tt (set_request (oracle_requestId e) messageId s)
                  [VerificationRequested messageId]
      /\ requestAt (transact e (RequestCommandVerification messageId) s)
                   (oracle_requestId e) = messageId)
  /\ (isVerified (decryptedAt s messageId) = false ->
      request_allowed e (encryptedAt s messageId) = false ->
      requestCommandVerification e messageId s = Failure SenderNotAllowed)
  /\ (reachable s -> ~ (1 <= messageId <= messageCount s) ->
      isVerified (decryptedAt s messageId) = false ->
      requestCommandVerification e messageId s = Failure SenderNotAllowed).
Proof.
  unfold transact; simpl. rewrite request_closed.
  split; [|split; [|split]].
  - by intros ->.
  - intros -> ->. split; [reflexivity|].
    unfold requestAt, set_request; simpl. apply at_key_insert_eq.
  - by intros -> ->.
  - intros Hs Hout ->. by rewrite (encrypted_outside s messageId Hs Hout).
Qed.

(** C6: a [verifyCommand] whose request id has no entry in the request
    table (the entry is 0) reverts with "Invalid request" and leaves the
    storage as it was. *)
Theorem verifyCommand_unknown_request e requestId cleartexts proof s :
  requestAt s requestId = 0 ->
  verifyCommand e requestId cleartexts proof s = Failure (Revert "Invalid request")
  /\ transact e (VerifyCommand requestId cleartexts proof) s = s.
Proof.
  intros Hr.
  assert (Hrun : verifyCommand e requestId cleartexts proof s
                 = Failure (Revert "Invalid request")).
  { rewrite verify_closed. cbv zeta. by rewrite Hr. }
  split; [exact Hrun|]. unfold transact; simpl. by rewrite Hrun.
Qed.

(** C9: a [decryptEcuStats] callback writes nothing: whether it succeeds or
    fails the storage is the one before the call, and a successful call
    returns no value and logs nothing but the library's
    [DecryptionFulfilled] of the proof check. *)
Theorem decryptEcuStats_writes_nothing e requestId cleartexts proof s :
  transact e (DecryptEcuStats requestId cleartexts proof) s = s
  /\ (forall a s' evs,
        decryptEcuStats e requestId cleartexts proof s = Success a s' evs ->
        a = tt /\ s' = s /\ evs = [DecryptionFulfilled requestId]).
Proof.
  split.
  - unfold transact; simpl.
    destruct (decryptEcuStats e requestId cleartexts proof s) as [a s' evs|] eqn:Hd;
      [|reflexivity].
    by apply decryptEcuStats_pure in Hd as [-> _].
  - intros [] s' evs Hd. apply decryptEcuStats_pure in Hd. tauto.
Qed.


(** *** The trust score *)

Lemma trustLoop_exit fuel ecuId i vc tc s :
  messageCount s < i -> trustLoop fuel ecuId i vc tc s = Success (vc, tc) s [].
Proof.
  intros Hi. destruct fuel; simpl; run;
    (destruct (Z.leb_spec i (messageCount s)); [lia|reflexivity]).
Qed.

Lemma trustLoop_step fuel ecuId i vc tc s :
  i <= messageCount s ->
  trustLoop (S fuel) ecuId i vc tc s =
    let d := decryptedAt s i in
    if isVerified d &&
       (keccak256 (abi_encodePacked (sourceEcu d)) =? keccak256 (abi_encodePacked ecuId))
    then
      if tc + 1 <=? MAX_UINT256 then
        if vc + 1 <=? MAX_UINT256 then
          if i + 1 <=? MAX_UINT256
          then trustLoop fuel ecuId (i + 1) (vc + 1) (tc + 1) s
          else Failure (Panic 17)
        else Failure (Panic 17)
      else Failure (Panic 17)
    else
      if i + 1 <=? MAX_UINT256
      then trustLoop fuel ecuId (i + 1) vc tc s
      else Failure (Panic 17).
Proof.
  intros Hi. simpl. run.
  destruct (Z.leb_spec i (messageCount s)); [|lia]. simpl.
  destruct (isVerified (decryptedAt s i) && _); simpl.
  - destruct (tc + 1 <=? MAX_UINT256); simpl; [|reflexivity].
    destruct (vc + 1 <=? MAX_UINT256); simpl; [|reflexivity].
    destruct (i + 1 <=? MAX_UINT256); simpl; [|reflexivity].
    by destruct (trustLoop _ _ _ _ _ _).
  - destruct (i + 1 <=? MAX_UINT256); simpl; [|reflexivity].
    by destruct (trustLoop _ _ _ _ _ _).
Qed.

Lemma fromEcu_hash s ecuId i :
  no_collision s ecuId -> 1 <= i <= messageCount s ->
  isVerified (decryptedAt s i) &&
    (keccak256 (abi_encodePacked (sourceEcu (decryptedAt s i)))
       =? keccak256 (abi_encodePacked ecuId))
  = fromEcu s ecuId i.
Proof.
  intros Hnc Hi. unfold fromEcu.
  destruct (isVerified (decryptedAt s i)) eqn:Hv; simpl; [|reflexivity].
  case_bool_decide as Heq.
  - rewrite Heq. apply Z.eqb_refl.
  - apply Z.eqb_neq. intros Hh. apply Heq. by apply Hnc.
Qed.

Lemma trustLoop_counts s ecuId (n : nat) :
  no_collision s ecuId -> messageCount s < MAX_UINT256 ->
  forall fuel i vc tc,
    (n <= fuel)%nat -> 1 <= i -> Z.of_nat n = messageCount s + 1 - i ->
    0 <= vc < i -> 0 <= tc < i ->
    trustLoop fuel ecuId i vc tc s =
      Success (vc + Z.of_nat (length (List.filter (passes s)
                                       (List.filter (fromEcu s ecuId) (seqZ i (Z.of_nat n))))),
               tc + Z.of_nat (length (List.filter (fromEcu s ecuId) (seqZ i (Z.of_nat n)))))
              s [].
Proof.
  intros Hnc Hmax. induction n as [|n IH]; intros fuel i vc tc Hfuel Hi Hn Hvc Htc.
  - rewrite trustLoop_exit by lia. simpl. by rewrite !Z.add_0_r.
  - destruct fuel as [|fuel]; [lia|].
    rewrite trustLoop_step by lia. cbv zeta.
    rewrite fromEcu_hash by (auto; lia).
    rewrite seqZ_cons by lia. simpl List.filter.
    replace (Z.pred (Z.of_nat (S n))) with (Z.of_nat n) by lia.
    replace (Z.succ i) with (i + 1) by lia.
    destruct (fromEcu s ecuId i); simpl List.filter.
    + destruct (Z.leb_spec (tc + 1) MAX_UINT256); [|lia].
      destruct (Z.leb_spec (vc + 1) MAX_UINT256); [|lia].
      destruct (Z.leb_spec (i + 1) MAX_UINT256); [|lia].
      rewrite IH by lia. simpl length.
      f_equal. f_equal; lia.
    + destruct (Z.leb_spec (i + 1) MAX_UINT256); [|lia].
      rewrite IH by lia. reflexivity.
Qed.

(** C8 (as the code has it, with its checked arithmetic): while the
    counter is below the largest [uint256] and [k * 100] fits in a
    [uint256], [calculateEcuTrustScore] returns 100 when the ECU has no
    verified message and [k * 100 / n] when it has [n > 0], [k] of them
    passing [validateCommand]; that is 100 when all pass. *)
Theorem calculateEcuTrustScore_value s ecuId :
  messageCount s < MAX_UINT256 ->
  no_collision s ecuId ->
  let n := Z.of_nat (length (verifiedFrom s ecuId)) in
  let k := Z.of_nat (length (passing s ecuId)) in
  k * 100 <= MAX_UINT256 ->
  calculateEcuTrustScore ecuId s = Success (if n =? 0 then 100 else k * 100 / n) s []
  /\ (n = 0 -> calculateEcuTrustScore ecuId s = Success 100 s [])
  /\ (0 < n -> k = n -> calculateEcuTrustScore ecuId s = Success 100 s []).
Proof.
  intros Hmax Hnc n k Hk.
  assert (Hrun : calculateEcuTrustScore ecuId s
                 = Success (if n =? 0 then 100 else k * 100 / n) s []).
  { unfold calculateEcuTrustScore. run.
    destruct (Z.le_gt_cases 1 (messageCount s)) as [Hpos|Hneg].
    - rewrite (trustLoop_counts s ecuId (Z.to_nat (messageCount s))) by (auto; lia).
      rewrite Z2Nat.id by lia. fold (verifiedFrom s ecuId). fold (passing s ecuId).
      fold n. fold k. simpl. rewrite !Z.add_0_l.
      destruct (Z.ltb_spec 0 n) as [Hn|Hn]; simpl.
      + destruct (Z.leb_spec (k * 100) MAX_UINT256); [|lia]. simpl.
        destruct (Z.eqb_spec n 0); [lia|reflexivity].
      + destruct (Z.eqb_spec n 0); [reflexivity|lia].
    - rewrite trustLoop_exit by lia. simpl.
      assert (Hn : n = 0).
      { unfold n, verifiedFrom. rewrite seqZ_nil by lia. reflexivity. }
      by rewrite Hn. }
  split; [exact Hrun|]. split.
  - intros Hn. rewrite Hrun, Hn. reflexivity.
  - intros Hn Hkn. rewrite Hrun, Hkn.
    destruct (Z.eqb_spec n 0); [lia|].
    by rewrite (Z.mul_comm n 100), Z.div_mul by lia.
Qed.

Lemma MAX_UINT256_pos : 0 < MAX_UINT256.
Proof. unfold MAX_UINT256. lia. Qed.

(** With the counter at the largest [uint256] the loop cannot finish: its
    checked [i++] overflows after the last message. *)
Lemma trustLoop_overflow s ecuId :
  messageCount s = MAX_UINT256 ->
  forall fuel i vc tc,
    1 <= i <= MAX_UINT256 -> MAX_UINT256 - i < Z.of_nat fuel ->
    trustLoop fuel ecuId i vc tc s = Failure (Panic 17).
Proof.
  intros Hmc. induction fuel as [|fuel IH]; intros i vc tc Hi Hfuel; [lia|].
  rewrite trustLoop_step by lia. cbv zeta.
  destruct (_ && _).
  - destruct (tc + 1 <=? MAX_UINT256); [|reflexivity].
    destruct (vc + 1 <=? MAX_UINT256); [|reflexivity].
    destruct (Z.leb_spec (i + 1) MAX_UINT256); [|reflexivity].
    apply IH; lia.
  - destruct (Z.leb_spec (i + 1) MAX_UINT256); [|reflexivity].
    apply IH; lia.
Qed.

Lemma trustScore_overflow s ecuId :
  messageCount s = MAX_UINT256 ->
  calculateEcuTrustScore ecuId s = Failure (Panic 17).
Proof.
  intros Hmc. pose proof MAX_UINT256_pos as Hpos.
  unfold calculateEcuTrustScore, mbind, M_bind, bind, gets.
  rewrite (trustLoop_overflow s ecuId Hmc); [reflexivity|lia|lia].
Qed.

Lemma filter_none {A} (f : A -> bool) (l : list A) :
  (forall x, f x = false) -> List.filter f l = [].
Proof.
  intros Hf. induction l as [|x l IH]; [reflexivity|].
  simpl. by rewrite Hf.
Qed.

(** *** Submission *)

(** C3 (as the code has it, with its checked counter): the counter starts
    at 0, and while it is below the largest [uint256] a call to
    [submitEncryptedCanMessage] succeeds, gives the message the id
    [messageCount + 1], stores the three handles with the block timestamp
    and an empty, unverified decrypted record, emits [MessageReceived], and
    touches nothing else. *)
Theorem submit_assigns_next_id e a b c s :
  messageCount s < MAX_UINT256 ->
  messageCount initial = 0
  /\ exists s',
      submitEncryptedCanMessage e a b c s
        = Success tt s' [MessageReceived (messageCount s + 1) (block_timestamp e)]
      /\ messageCount s' = messageCount s + 1
      /\ encryptedAt s' (messageCount s + 1)
          = mkEncrypted (messageCount s + 1) a b c (block_timestamp e)
      /\ decryptedAt s' (messageCount s + 1) = mkDecrypted "" "" "" false
      /\ (forall i, i <> messageCount s + 1 ->
            encryptedAt s' i = encryptedAt s i /\ decryptedAt s' i = decryptedAt s i)
      /\ encryptedEcuStats s' = encryptedEcuStats s
      /\ ecuList s' = ecuList s
      /\ requestToMessageId s' = requestToMessageId s.
Proof.
  intros Hmax. split; [reflexivity|].
  exists (submitted e a b c s). rewrite submit_closed.
  destruct (Z.leb_spec (messageCount s + 1) MAX_UINT256); [|lia].
  repeat split.
  - unfold encryptedAt, submitted; simpl. apply at_key_insert_eq.
  - unfold decryptedAt, submitted; simpl. apply at_key_insert_eq.
  - unfold encryptedAt, submitted; simpl. by apply at_key_insert_ne.
  - unfold decryptedAt, submitted; simpl. by apply at_key_insert_ne.
Qed.

(** *** The ECU registry *)

Section Registry.
Hypothesis FHE_add_initialized : forall a b, FHE_isInitialized (FHE_add a b) = true.

Lemma registry_verified messageId cmd src tgt s :
  registry_ok s -> registry_ok (verified messageId cmd src tgt s).
Proof.
  intros [Hnd Hin]. unfold registry_ok, verified, statsAt; simpl.
  fold (statsAt s src).
  destruct (FHE_isInitialized (statsAt s src)) eqn:Hinit.
  - split; [exact Hnd|]. intros ecu. destruct (decide (src = ecu)) as [<-|Hne].
    + rewrite at_key_insert_eq, FHE_add_initialized. split; [done|].
      intros _. by apply Hin.
    + rewrite at_key_insert_ne by done. apply Hin.
  - assert (Hfresh : src ∉ ecuList s).
    { intros Hel. apply Hin in Hel. congruence. }
    split.
    + apply NoDup_app. split; [exact Hnd|]. split.
      * intros x Hx Hx'. apply list_elem_of_singleton in Hx'. by subst x.
      * apply NoDup_singleton.
    + intros ecu. rewrite elem_of_app, list_elem_of_singleton.
      destruct (decide (src = ecu)) as [<-|Hne].
      * rewrite at_key_insert_eq, FHE_add_initialized. tauto.
      * rewrite at_key_insert_ne by done. rewrite Hin.
        fold (statsAt s ecu). split; [intros [|]; [done|congruence]|tauto].
Qed.

Lemma registry_reachable s : reachable s -> registry_ok s.
Proof.
  induction 1 as [|s e c _ IH].
  - split; [constructor|]. intros ecu. simpl. split; [by intros ?%elem_of_nil|done].
  - destruct (transact_effect e c s); auto using registry_verified.
Qed.

(** C7: (the library's [FHE.add] returning an initialised handle) a
    successful [verifyCommand] creates the counter of the decoded source
    ECU when it has none, appending the name to [ecuList], and then stores
    the incremented counter; in every reachable storage [ecuList] holds no
    name twice. *)
Theorem ecuList_no_duplicates s :
  reachable s ->
  NoDup (ecuList s)
  /\ forall e requestId cleartexts proof s' evs,
      verifyCommand e requestId cleartexts proof s = Success tt s' evs ->
      exists cmd src tgt,
        abi_decode_strings cleartexts = Some (cmd, src, tgt)
        /\ let created :=
             if FHE_isInitialized (statsAt s src) then s
             else push_ecuList src (set_ecuStats src (FHE_asEuint32 0) s) in
           ecuList s' = ecuList created
           /\ statsAt s' src = FHE_add (statsAt created src) (FHE_asEuint32 1)
           /\ (FHE_isInitialized (statsAt s src) = false ->
               (src ∉ ecuList s) /\ ecuList s' = ecuList s ++ [src])
           /\ (FHE_isInitialized (statsAt s src) = true -> ecuList s' = ecuList s)
           /\ src ∈ ecuList s'
           /\ NoDup (ecuList s').
Proof.
  intros Hs. pose proof (registry_reachable s Hs) as [Hnd Hin].
  split; [exact Hnd|].
  intros e r ct pf s' evs. rewrite verify_closed. cbv zeta.
  destruct (requestAt s r =? 0); [discriminate|].
  destruct (isVerified (decryptedAt s (requestAt s r))); [discriminate|].
  destruct (signatures_ok e); [|discriminate].
  destruct (abi_decode_strings ct) as [[[cmd src] tgt]|]; [|discriminate].
  destruct (counter_usable _ s src); [|discriminate].
  intros [= <- _]. exists cmd, src, tgt. split; [reflexivity|].
  pose proof (registry_verified (requestAt s r) cmd src tgt s (conj Hnd Hin)) as [Hnd' Hin'].
  assert (Hel : src ∈ ecuList (verified (requestAt s r) cmd src tgt s)).
  { apply Hin'. unfold verified, statsAt; simpl.
    by rewrite at_key_insert_eq, FHE_add_initialized. }
  split; [|split; [|split; [|split; [|split]]]]; try assumption.
  - unfold verified; simpl. by destruct (FHE_isInitialized (statsAt s src)).
  - unfold verified, statsAt; simpl. rewrite at_key_insert_eq.
    fold (statsAt s src). destruct (FHE_isInitialized (statsAt s src)); [reflexivity|].
    unfold push_ecuList, set_ecuStats; simpl. by rewrite at_key_insert_eq.
  - intros Hno. split.
    + intros Hel'. apply Hin in Hel'. congruence.
    + unfold verified; simpl. by rewrite Hno.
  - intros Hyes. unfold verified; simpl. by rewrite Hyes.
Qed.

End Registry.

End Properties.

(** * Properties of the other functions *)

Section Callbacks.
Context `{FHELib} `{EVMBuiltins}.

Abbreviation hashOf x := (keccak256 (abi_encodePacked x)).

(** *** The scan of the registry *)

Lemma in_middle (l1 l2 : list string) (x : string) : x ∈ l1 ++ x :: l2.
Proof. apply elem_of_app. right. apply list_elem_of_here. Qed.

Lemma scan_first_match l1 ecu l2 hash s :
  (forall x, x ∈ l1 -> hashOf x <> hash) -> hashOf ecu = hash ->
  scanEcuList (l1 ++ ecu :: l2) hash s = Success ecu s [].
Proof.
  intros Hl1 Hecu. induction l1 as [|x l1 IH]; simpl.
  - unfold bytes32ToUint. rewrite Hecu, Z.eqb_refl. reflexivity.
  - unfold bytes32ToUint. destruct (Z.eqb_spec (hashOf x) hash) as [Heq|_].
    + exfalso. apply (Hl1 x); [apply list_elem_of_here|exact Heq].
    + apply IH. intros y Hy. apply Hl1. by apply list_elem_of_further.
Qed.

Lemma scan_no_match l hash s :
  (forall x, x ∈ l -> hashOf x <> hash) ->
  scanEcuList l hash s = Failure (Revert "ECU not found").
Proof.
  intros Hl. induction l as [|x l IH]; simpl; [reflexivity|].
  unfold bytes32ToUint. destruct (Z.eqb_spec (hashOf x) hash) as [Heq|_].
  - exfalso. apply (Hl x); [apply list_elem_of_here|exact Heq].
  - apply IH. intros y Hy. apply Hl. by apply list_elem_of_further.
Qed.

Lemma first_match_or_none (l : list string) hash :
  (exists l1 ecu l2, l = l1 ++ ecu :: l2 /\ hashOf ecu = hash
                     /\ forall x, x ∈ l1 -> hashOf x <> hash)
  \/ (forall x, x ∈ l -> hashOf x <> hash).
Proof.
  induction l as [|x l IH].
  - right. intros y Hy. by apply elem_of_nil in Hy.
  - destruct (decide (hashOf x = hash)) as [Heq|Hne].
    + left. exists [], x, l. split; [reflexivity|]. split; [exact Heq|].
      intros y Hy. by apply elem_of_nil in Hy.
    + destruct IH as [(l1 & ecu & l2 & -> & Hecu & Hl1)|Hnone].
      * left. exists (x :: l1), ecu, l2. split; [reflexivity|]. split; [exact Hecu|].
        intros y Hy. apply elem_of_cons in Hy as [->|Hy]; auto.
      * right. intros y Hy. apply elem_of_cons in Hy as [->|Hy]; auto.
Qed.

(** X1: [getEcuFromHash] returns the first name of [ecuList] with the given
    hash, reading only; it fails, with "ECU not found", exactly when no
    name of the registry has that hash. *)
Theorem getEcuFromHash_first_match hash s :
  (forall ecu s' evs,
      getEcuFromHash hash s = Success ecu s' evs <->
      s' = s /\ evs = []
      /\ exists l1 l2, ecuList s = l1 ++ ecu :: l2 /\ hashOf ecu = hash
                        /\ forall x, x ∈ l1 -> hashOf x <> hash)
  /\ (forall err,
        getEcuFromHash hash s = Failure err <->
        err = Revert "ECU not found" /\ forall x, x ∈ ecuList s -> hashOf x <> hash).
Proof.
  unfold getEcuFromHash, mbind, M_bind, bind, gets.
  destruct (first_match_or_none (ecuList s) hash)
    as [(l1 & ecu & l2 & Hl & Hecu & Hl1)|Hnone].
  - rewrite Hl, (scan_first_match l1 ecu l2 hash s Hl1 Hecu). simpl. split.
    + intros ecu' s' evs. split.
      * intros [= <- <- <-]. repeat split. exists l1, l2. auto.
      * intros (-> & -> & k1 & k2 & Hk & Hecu' & Hk1).
        assert (Hsame : Success (A:=string) ecu' s [] = Success ecu s []); [|exact (eq_sym Hsame)].
        rewrite <- (scan_first_match k1 ecu' k2 hash s Hk1 Hecu'), <- Hk.
        apply (scan_first_match l1 ecu l2 hash s Hl1 Hecu).
    + intros err. split; [discriminate|].
      intros [_ Hnone]. exfalso. apply (Hnone ecu); [|exact Hecu].
      apply in_middle.
  - rewrite (scan_no_match (ecuList s) hash s Hnone). split.
    + intros ecu s' evs. split; [discriminate|].
      intros (_ & _ & l1 & l2 & Hl & Hecu & _). exfalso. apply (Hnone ecu); [|exact Hecu].
      rewrite Hl. apply in_middle.
    + intros err. split; [intros [= <-]; auto|]. by intros [-> _].
Qed.

(** The four ways a [decryptEcuStats] callback can end, in the order the
    code checks them. *)
Lemma decryptEcuStats_outcome e requestId cleartexts proof s :
  decryptEcuStats e requestId cleartexts proof s =
    match scanEcuList (ecuList s) (requestAt s requestId) s with
    | Failure err => Failure err
    | Success _ _ _ =>
        if signatures_ok e then
          match abi_decode_uint32 cleartexts with
          | Some _ => Success tt s [DecryptionFulfilled requestId]
          | None => Failure AbiDecodeError
          end
        else Failure InvalidKMSSignatures
    end.
Proof.
  unfold decryptEcuStats, getEcuFromHash. run.
  destruct (scanEcuList (ecuList s) (requestAt s requestId) s) as [ecu s1 e1|] eqn:Hscan;
    [|reflexivity].
  apply scanEcuList_pure in Hscan as [-> ->]. simpl.
  destruct (signatures_ok e); simpl; [|reflexivity].
  destruct (abi_decode_uint32 cleartexts); reflexivity.
Qed.

(** X2: a [decryptEcuStats] callback whose request id resolves to no name of
    the registry (an id never issued, for one) fails with "ECU not found",
    before the proof is looked at; when a name is found, a rejected proof
    gives [InvalidKMSSignatures], and an accepted proof with a well-formed
    payload makes the call succeed, the storage unchanged and the
    library's [DecryptionFulfilled] the one event logged. *)
Theorem decryptEcuStats_resolution e requestId cleartexts proof s :
  ((forall x, x ∈ ecuList s -> hashOf x <> requestAt s requestId) ->
     decryptEcuStats e requestId cleartexts proof s = Failure (Revert "ECU not found"))
  /\ ((exists x, x ∈ ecuList s /\ hashOf x = requestAt s requestId) ->
      signatures_ok e = false ->
      decryptEcuStats e requestId cleartexts proof s = Failure InvalidKMSSignatures)
  /\ ((exists x, x ∈ ecuList s /\ hashOf x = requestAt s requestId) ->
      signatures_ok e = true -> is_Some (abi_decode_uint32 cleartexts) ->
      decryptEcuStats e requestId cleartexts proof s
        = Success tt s [DecryptionFulfilled requestId]).
Proof.
  rewrite decryptEcuStats_outcome.
  destruct (first_match_or_none (ecuList s) (requestAt s requestId))
    as [(l1 & ecu & l2 & Hl & Hecu & Hl1)|Hnone].
  - pose proof (scan_first_match l1 ecu l2 _ s Hl1 Hecu) as Hscan.
    rewrite <- Hl in Hscan. rewrite Hscan.
    split; [|split].
    + intros Hnone. exfalso. apply (Hnone ecu); [|exact Hecu].
      rewrite Hl. apply in_middle.
    + intros _ ->. reflexivity.
    + intros _ -> [v ->]. reflexivity.
  - rewrite (scan_no_match _ _ s Hnone). split; [|split].
    + reflexivity.
    + intros (x & Hx & Hhash). by destruct (Hnone x Hx).
    + intros (x & Hx & Hhash). by destruct (Hnone x Hx).
Qed.

(** In a reachable storage every counter is a sum the coprocessor
    returned. *)
Lemma counters_are_sums s :
  reachable s ->
  forall ecu, FHE_isInitialized (statsAt s ecu) = true ->
              exists a b, statsAt s ecu = FHE_add a b.
Proof.
  induction 1 as [|s e c _ IH]; intros ecu; [discriminate|].
  destruct (transact_effect e c s) as [|a b t _ _|r j _|r ct pf cmd src tgt _ _ _];
    try apply IH.
  unfold statsAt, verified; simpl. destruct (decide (src = ecu)) as [<-|Hne].
  - rewrite at_key_insert_eq. eauto.
  - rewrite at_key_insert_ne by done. apply IH.
Qed.

Section WithInitialisedAdd.
Hypothesis FHE_add_initialized : forall a b, FHE_isInitialized (FHE_add a b) = true.

(** X3: in a reachable storage [requestEcuStatsDecryption] reverts with
    "ECU not found" for a name that is not in [ecuList]; for a registered
    name the outcome is the library's verdict on the stored counter: the
    request is sent (the hash of the name recorded under the oracle's
    request id, nothing else changed, nothing logged) when the
    access-control list lets the contract use the counter, and reverts
    with [SenderNotAllowed] when it does not.  The counter being a sum the
    contract never called [FHE.allowThis] on, a list without such sums
    makes the call revert for every name. *)
Theorem requestEcuStatsDecryption_registered e ecuId s :
  reachable s ->
  (ecuId ∉ ecuList s ->
     requestEcuStatsDecryption e ecuId s = Failure (Revert "ECU not found"))
  /\ (ecuId ∈ ecuList s -> acl_allowed e (statsAt s ecuId) = true ->
      requestEcuStatsDecryption e ecuId s
        = Success tt (set_request (oracle_requestId e) (hashOf ecuId) s) [])
  /\ (ecuId ∈ ecuList s -> acl_allowed e (statsAt s ecuId) = false ->
      requestEcuStatsDecryption e ecuId s = Failure SenderNotAllowed)
  /\ (acl_sound e ->
      requestEcuStatsDecryption e ecuId s
      = if bool_decide (ecuId ∈ ecuList s)
        then Failure SenderNotAllowed else Failure (Revert "ECU not found")).
Proof.
  intros Hs. destruct (registry_reachable FHE_add_initialized s Hs) as [_ Hin].
  rewrite requestStats_closed. unfold bytes32ToUint, persistently_allowed.
  split; [|split; [|split]].
  - intros Hel. destruct (FHE_isInitialized (statsAt s ecuId)) eqn:Hinit; [|reflexivity].
    exfalso. apply Hel. by apply Hin.
  - intros Hel Hacl. apply Hin in Hel. by rewrite Hel, Hacl.
  - intros Hel Hacl. apply Hin in Hel. by rewrite Hel, Hacl.
  - intros Hsound. case_bool_decide as Hel.
    + apply Hin in Hel. rewrite Hel. simpl.
      destruct (counters_are_sums s Hs ecuId Hel) as (x & y & ->).
      by rewrite Hsound.
    + destruct (FHE_isInitialized (statsAt s ecuId)) eqn:Hinit; [|reflexivity].
      exfalso. apply Hel. by apply Hin.
Qed.

End WithInitialisedAdd.

End Callbacks.

Section Lifecycle.
Context `{FHELib} `{EVMBuiltins}.

Lemma verify_success e requestId cleartexts proof s s' evs :
  verifyCommand e requestId cleartexts proof s = Success tt s' evs ->
  exists cmd src tgt,
    abi_decode_strings cleartexts = Some (cmd, src, tgt)
    /\ s' = verified (requestAt s requestId) cmd src tgt s
    /\ evs = [DecryptionFulfilled requestId; MessageVerified (requestAt s requestId)].
Proof.
  rewrite verify_closed. cbv zeta.
  destruct (requestAt s requestId =? 0); [discriminate|].
  destruct (isVerified _); [discriminate|].
  destruct (signatures_ok e); [|discriminate].
  destruct (abi_decode_strings cleartexts) as [[[cmd src] tgt]|]; [|discriminate].
  destruct (counter_usable _ s src); [|discriminate].
  intros [= <- <-]. exists cmd, src, tgt. auto.
Qed.

(** X6: submit, request, deliver, read: after a successful [verifyCommand]
    the three decoded strings and the flag [true] are what
    [getDecryptedMessage] returns for the message of the request, and the
    callback logged the library's [DecryptionFulfilled] for the request,
    then [MessageVerified] for that message, and nothing else. *)
Theorem verified_message_reads_back e requestId cleartexts proof s s' evs :
  verifyCommand e requestId cleartexts proof s = Success tt s' evs ->
  exists cmd src tgt,
    abi_decode_strings cleartexts = Some (cmd, src, tgt)
    /\ getDecryptedMessage (requestAt s requestId) s'
       = Success (cmd, src, tgt, true) s' []
    /\ evs = [DecryptionFulfilled requestId; MessageVerified (requestAt s requestId)].
Proof.
  intros Hok. apply verify_success in Hok as (cmd & src & tgt & Hdec & -> & ->).
  exists cmd, src, tgt. split; [exact Hdec|]. split; [|reflexivity].
  unfold getDecryptedMessage. run.
  rewrite decryptedAt_verified. by rewrite decide_True.
Qed.

(** X7: what a successful [verifyCommand] leaves alone: the counter, every
    encrypted record, the request table, the decrypted record of every
    other message and the counter handle of every other ECU; the registry
    is unchanged or longer by the one source ECU. *)
Theorem verifyCommand_frame e requestId cleartexts proof s s' evs :
  verifyCommand e requestId cleartexts proof s = Success tt s' evs ->
  messageCount s' = messageCount s
  /\ encryptedMessages s' = encryptedMessages s
  /\ requestToMessageId s' = requestToMessageId s
  /\ (forall i, i <> requestAt s requestId -> decryptedAt s' i = decryptedAt s i)
  /\ (forall ecu, ecu <> sourceEcu (decryptedAt s' (requestAt s requestId)) ->
        statsAt s' ecu = statsAt s ecu)
  /\ (ecuList s' = ecuList s
      \/ ecuList s' = ecuList s ++ [sourceEcu (decryptedAt s' (requestAt s requestId))]).
Proof.
  intros Hok. apply verify_success in Hok as (cmd & src & tgt & _ & -> & _).
  rewrite decryptedAt_verified, decide_True by reflexivity. simpl.
  split; [reflexivity|]. split; [reflexivity|]. split; [reflexivity|].
  split; [|split].
  - intros i Hi. rewrite decryptedAt_verified. by rewrite decide_False.
  - intros ecu Hecu. unfold statsAt, verified; simpl. by apply at_key_insert_ne.
  - destruct (FHE_isInitialized (statsAt s src)); auto.
Qed.

Lemma encryptedAt_submitted e a b t s i :
  encryptedAt (submitted e a b t s) i =
    if decide (i = messageCount s + 1)
    then mkEncrypted (messageCount s + 1) a b t (block_timestamp e)
    else encryptedAt s i.
Proof.
  unfold encryptedAt, submitted; simpl. case_decide as Hi.
  - subst. apply at_key_insert_eq.
  - apply at_key_insert_ne. congruence.
Qed.

(** X8: in a reachable storage the counter is a [uint256], the encrypted
    record of each id from 1 to [messageCount] carries that id, and no
    other id has an encrypted record. *)
Theorem encrypted_records_match_counter s :
  reachable s ->
  0 <= messageCount s <= MAX_UINT256
  /\ (forall i, 1 <= i <= messageCount s -> id (encryptedAt s i) = i)
  /\ (forall i, ~ (1 <= i <= messageCount s) -> encryptedAt s i = zeroEncrypted).
Proof.
  intros Hs. split; [by apply messageCount_bounds|].
  induction Hs as [|s e c Hs [IHin IHout]]; [split; [simpl; lia|reflexivity]|].
  pose proof (messageCount_bounds s Hs) as Hmc.
  destruct (transact_effect e c s) as [|a b t _ _|r j _|r ct pf cmd src tgt _ _ _];
    try (split; assumption).
  split; intros i; rewrite encryptedAt_submitted; simpl; intros Hi.
  - case_decide as Heq; [by subst i|]. apply IHin. lia.
  - case_decide as Heq; [lia|]. apply IHout. lia.
Qed.

(** X9: an encrypted record is written once: whatever transactions follow,
    the record of an id at most [messageCount] stays as it is, and the
    counter never decreases. *)
Theorem encrypted_record_immutable s s' i :
  steps s s' -> i <= messageCount s ->
  encryptedAt s' i = encryptedAt s i /\ messageCount s <= messageCount s'.
Proof.
  intros Hst Hi. induction Hst as [|s' e c _ [IHe IHm]]; [split; [reflexivity|lia]|].
  destruct (transact_effect e c s') as [|a b t _ _|r j _|r ct pf cmd src tgt _ _ _];
    try (split; assumption).
  rewrite encryptedAt_submitted. simpl. split; [|lia].
  case_decide; [lia|exact IHe].
Qed.

(** X10: the request table is written by the two request functions only,
    and only at the request id the oracle hands out: a submission or a
    callback (successful or not) leaves every entry as it is, so a
    delivered request is never cleared. *)
Theorem request_table_written_by_requests e c s r :
  requestAt (transact e c s) r <> requestAt s r ->
  r = oracle_requestId e
  /\ ((exists i, c = RequestCommandVerification i /\ requestAt (transact e c s) r = i)
      \/ (exists ecu, c = RequestEcuStatsDecryption ecu
                      /\ requestAt (transact e c s) r
                         = keccak256 (abi_encodePacked ecu))).
Proof.
  unfold transact. destruct c as [a b t|i|r' ct pf|ecu|r' ct pf]; simpl.
  - rewrite submit_closed. destruct (_ <=? _); intros Hne; by destruct Hne.
  - rewrite request_closed. destruct (isVerified _); [intros Hne; by destruct Hne|].
    destruct (request_allowed e _); [|intros Hne; by destruct Hne].
    unfold requestAt, set_request; simpl.
    destruct (decide (oracle_requestId e = r)) as [<-|Hr].
    + rewrite at_key_insert_eq. intros _. split; [reflexivity|]. left. eauto.
    + rewrite at_key_insert_ne by done. intros Hne; by destruct Hne.
  - destruct (verifyCommand e r' ct pf s) as [[] s' evs|] eqn:Hv;
      [|intros Hne; by destruct Hne].
    apply verify_success in Hv as (cmd & src & tgt & _ & -> & _).
    intros Hne; by destruct Hne.
  - rewrite requestStats_closed. destruct (FHE_isInitialized _);
      [|intros Hne; by destruct Hne].
    destruct (persistently_allowed e _); [|intros Hne; by destruct Hne].
    unfold requestAt, set_request, bytes32ToUint; simpl.
    destruct (decide (oracle_requestId e = r)) as [<-|Hr].
    + rewrite at_key_insert_eq. intros _. split; [reflexivity|]. right. eauto.
    + rewrite at_key_insert_ne by done. intros Hne; by destruct Hne.
  - destruct (decryptEcuStats e r' ct pf s) as [a s' evs|] eqn:Hd;
      [|intros Hne; by destruct Hne].
    apply decryptEcuStats_pure in Hd as [-> _]. intros Hne; by destruct Hne.
Qed.

(** X11: the registry is append-only and a counter, once created, stays
    (the library's [FHE.add] returning an initialised handle): after any
    transactions [ecuList] has the old list as a prefix and every ECU
    with an initialised counter still has one. *)
Theorem registry_append_only s s' :
  (forall a b, FHE_isInitialized (FHE_add a b) = true) ->
  steps s s' ->
  ecuList s `prefix_of` ecuList s'
  /\ (forall ecu, FHE_isInitialized (statsAt s ecu) = true ->
                  FHE_isInitialized (statsAt s' ecu) = true).
Proof.
  intros Hadd Hst. induction Hst as [|s' e c _ [IHl IHc]]; [split; [reflexivity|auto]|].
  destruct (transact_effect e c s') as [|a b t _ _|r j _|r ct pf cmd src tgt _ _ _];
    try (split; assumption).
  split.
  - unfold verified; simpl. destruct (FHE_isInitialized (statsAt s' src)); [exact IHl|].
    etrans; [exact IHl|]. by apply prefix_app_r.
  - intros ecu Hecu. unfold statsAt, verified; simpl.
    destruct (decide (src = ecu)) as [<-|Hne].
    + by rewrite at_key_insert_eq.
    + rewrite at_key_insert_ne by done. by apply IHc.
Qed.

End Lifecycle.

(** * The decrypted record under the library's access control *)

Section AccessControl.
Context `{FHELib} `{EVMBuiltins}.








(** X20: the contract never makes its counters usable in a later call
    (it has no [FHE.allowThis]): under a list without its sums, and sums
    being told apart from trivial encryptions, a [verifyCommand] callback
    whose decoded source ECU already has a counter is refused by the
    coprocessor with [ACLNotAllowed] even though the request is known, the
    message unverified and the proof accepted; nothing is written. *)
Theorem second_verification_refused e requestId cleartexts proof cmd src tgt s :
  (forall a b, FHE_add a b <> FHE_asEuint32 1) ->
  reachable s -> acl_sound e ->
  requestAt s requestId <> 0 ->
  isVerified (decryptedAt s (requestAt s requestId)) = false ->
  signatures_ok e = true ->
  abi_decode_strings cleartexts = Some (cmd, src, tgt) ->
  FHE_isInitialized (statsAt s src) = true ->
  verifyCommand e requestId cleartexts proof s = Failure ACLNotAllowed
  /\ transact e (VerifyCommand requestId cleartexts proof) s = s.
Proof.
  intros Hdistinct Hs Hsound Hnz Hun Hsig Hdec Hinit.
  assert (Hrun : verifyCommand e requestId cleartexts proof s = Failure ACLNotAllowed).
  { rewrite verify_closed. cbv zeta.
    destruct (Z.eqb_spec (requestAt s requestId) 0); [contradiction|].
    rewrite Hun, Hsig, Hdec. unfold counter_usable, isAllowed, persistently_allowed.
    destruct (counters_are_sums s Hs src Hinit) as (x & y & Hsum).
    rewrite Hinit, Hsum, Hsound. simpl.
    rewrite bool_decide_eq_false_2; [reflexivity|].
    rewrite list_elem_of_singleton. apply Hdistinct. }
  split; [exact Hrun|]. unfold transact; simpl. by rewrite Hrun.
Qed.

End AccessControl.

Section Analyses.
Context `{FHELib} `{EVMBuiltins}.

Abbreviation hashOf x := (keccak256 (abi_encodePacked x)).

(** *** The trust score *)

Lemma trustLoop_equal_counts s ecuId (n : nat) :
  messageCount s < MAX_UINT256 ->
  forall fuel i v,
    (n <= fuel)%nat -> 1 <= i -> Z.of_nat n = messageCount s + 1 - i -> 0 <= v < i ->
    exists v', trustLoop fuel ecuId i v v s = Success (v', v') s []
               /\ v <= v' <= v + Z.of_nat n.
Proof.
  intros Hmax. induction n as [|n IH]; intros fuel i v Hfuel Hi Hn Hv.
  - exists v. rewrite trustLoop_exit by lia. split; [reflexivity|lia].
  - destruct fuel as [|fuel]; [lia|].
    rewrite trustLoop_step by lia. cbv zeta.
    destruct (_ && _).
    + destruct (Z.leb_spec (v + 1) MAX_UINT256); [|lia].
      destruct (Z.leb_spec (i + 1) MAX_UINT256); [|lia].
      destruct (IH fuel (i + 1) (v + 1)) as (v' & Hrun & Hv'); try lia.
      exists v'. split; [exact Hrun|lia].
    + destruct (Z.leb_spec (i + 1) MAX_UINT256); [|lia].
      destruct (IH fuel (i + 1) v) as (v' & Hrun & Hv'); try lia.
      exists v'. split; [exact Hrun|lia].
Qed.

(** X12: [validateCommand] accepting everything, the trust score carries no
    information: for every ECU name, with or without verified messages,
    [calculateEcuTrustScore] returns 100 (as long as [messageCount * 100]
    fits in a [uint256], so that the checked product cannot overflow). *)
Theorem trust_score_is_always_100 ecuId s :
  messageCount s * 100 <= MAX_UINT256 ->
  calculateEcuTrustScore ecuId s = Success 100 s [].
Proof.
  intros Hfit. pose proof MAX_UINT256_pos as Hpos.
  unfold calculateEcuTrustScore. run.
  destruct (Z.le_gt_cases 1 (messageCount s)) as [Hone|Hnone].
  - destruct (trustLoop_equal_counts s ecuId (Z.to_nat (messageCount s)) ltac:(lia)
                (Z.to_nat (messageCount s)) 1 0) as (v & Hrun & Hv); try lia.
    rewrite Hrun. simpl.
    destruct (Z.ltb_spec 0 v) as [Hv0|Hv0]; simpl; [|reflexivity].
    destruct (Z.leb_spec (v * 100) MAX_UINT256); [|lia]. simpl.
    destruct (Z.eqb_spec v 0); [lia|].
    by rewrite (Z.mul_comm v 100), Z.div_mul by lia.
  - rewrite trustLoop_exit by lia. reflexivity.
Qed.

(** *** Anomalous commands *)

Lemma safeScan_member cmd (knownSafeCommands : list string) :
  (forall known, known ∈ knownSafeCommands -> hashOf cmd = hashOf known -> cmd = known) ->
  safeScan cmd knownSafeCommands = bool_decide (cmd ∈ knownSafeCommands).
Proof.
  induction knownSafeCommands as [|known rest IH]; intros Hnc.
  - rewrite bool_decide_eq_false_2 by apply not_elem_of_nil. reflexivity.
  - cbn [safeScan]. destruct (Z.eqb_spec (hashOf cmd) (hashOf known)) as [Heq|Hne].
    + rewrite bool_decide_eq_true_2; [reflexivity|].
      rewrite (Hnc known) by (auto using list_elem_of_here). apply list_elem_of_here.
    + rewrite IH by (intros k Hk; apply Hnc; by apply list_elem_of_further).
      apply bool_decide_ext. rewrite elem_of_cons. split; [tauto|].
      intros [->|Hin]; [congruence|exact Hin].
Qed.

Lemma anomalyLoop_exit fuel ecuId known i s :
  messageCount s < i -> anomalyLoop fuel ecuId known i s = Success false s [].
Proof.
  intros Hi. destruct fuel; simpl; run;
    (destruct (Z.leb_spec i (messageCount s)); [lia|reflexivity]).
Qed.

Lemma anomalyLoop_step fuel ecuId known i s :
  i <= messageCount s ->
  anomalyLoop (S fuel) ecuId known i s =
    let d := decryptedAt s i in
    if isVerified d && (hashOf (sourceEcu d) =? hashOf ecuId)
    then
      if negb (safeScan (command d) known) then Success true s []
      else if i + 1 <=? MAX_UINT256
           then anomalyLoop fuel ecuId known (i + 1) s
           else Failure (Panic 17)
    else
      if i + 1 <=? MAX_UINT256
      then anomalyLoop fuel ecuId known (i + 1) s
      else Failure (Panic 17).
Proof.
  intros Hi. simpl. run.
  destruct (Z.leb_spec i (messageCount s)); [|lia]. simpl.
  destruct (isVerified (decryptedAt s i) && _); simpl.
  - destruct (negb (safeScan _ _)); simpl; [reflexivity|].
    destruct (i + 1 <=? MAX_UINT256); simpl; [|reflexivity].
    by destruct (anomalyLoop _ _ _ _ _).
  - destruct (i + 1 <=? MAX_UINT256); simpl; [|reflexivity].
    by destruct (anomalyLoop _ _ _ _ _).
Qed.

Lemma anomalyLoop_exists s ecuId known (n : nat) :
  no_collision s ecuId -> no_command_collision s known ->
  messageCount s < MAX_UINT256 ->
  forall fuel i,
    (n <= fuel)%nat -> 1 <= i -> Z.of_nat n = messageCount s + 1 - i ->
    anomalyLoop fuel ecuId known i s
      = Success (existsb (anomalous s ecuId known) (seqZ i (Z.of_nat n))) s [].
Proof.
  intros Hsrc Hcmd Hmax. induction n as [|n IH]; intros fuel i Hfuel Hi Hn.
  - by rewrite anomalyLoop_exit by lia.
  - destruct fuel as [|fuel]; [lia|].
    rewrite anomalyLoop_step by lia. cbv zeta.
    rewrite fromEcu_hash by (auto; lia).
    rewrite safeScan_member by (intros k Hk; apply Hcmd; [lia|exact Hk]).
    rewrite seqZ_cons by lia. simpl existsb.
    replace (Z.pred (Z.of_nat (S n))) with (Z.of_nat n) by lia.
    replace (Z.succ i) with (i + 1) by lia.
    unfold anomalous at 1.
    destruct (fromEcu s ecuId i); simpl.
    + destruct (bool_decide _); simpl; [|reflexivity].
      destruct (Z.leb_spec (i + 1) MAX_UINT256); [|lia]. apply IH; lia.
    + destruct (Z.leb_spec (i + 1) MAX_UINT256); [|lia]. apply IH; lia.
Qed.

Lemma detect_closed s ecuId known :
  no_collision s ecuId -> no_command_collision s known ->
  messageCount s < MAX_UINT256 ->
  detectAnomalousCommands ecuId known s
    = Success (existsb (anomalous s ecuId known) (seqZ 1 (messageCount s))) s [].
Proof.
  intros Hsrc Hcmd Hmax. unfold detectAnomalousCommands. run.
  destruct (Z.le_gt_cases 1 (messageCount s)) as [Hone|Hnone].
  - rewrite (anomalyLoop_exists s ecuId known (Z.to_nat (messageCount s))) by (auto; lia).
    by rewrite Z2Nat.id by lia.
  - rewrite anomalyLoop_exit by lia. by rewrite seqZ_nil by lia.
Qed.

(** X13: below the largest counter and with names and commands told apart
    by their hashes, [detectAnomalousCommands] answers [true] exactly when
    some verified message of the ECU, with an id from 1 to [messageCount],
    carries a command that is not in the known-safe list; the call reads
    only. *)
Theorem detectAnomalousCommands_meaning s ecuId known :
  no_collision s ecuId -> no_command_collision s known ->
  messageCount s < MAX_UINT256 ->
  exists b,
    detectAnomalousCommands ecuId known s = Success b s []
    /\ (b = true <->
        exists i, 1 <= i <= messageCount s
                  /\ isVerified (decryptedAt s i) = true
                  /\ sourceEcu (decryptedAt s i) = ecuId
                  /\ command (decryptedAt s i) ∉ known).
Proof.
  intros Hsrc Hcmd Hmax. eexists. split; [by apply detect_closed|].
  rewrite existsb_exists. split.
  - intros (i & Hin & Han). exists i.
    apply list_elem_of_In, elem_of_seqZ in Hin.
    unfold anomalous, fromEcu in Han.
    apply andb_prop in Han as [Hfrom Hnot]. apply andb_prop in Hfrom as [Hv Hsrc'].
    apply bool_decide_eq_true in Hsrc'. apply negb_true_iff, bool_decide_eq_false in Hnot.
    repeat split; try assumption; lia.
  - intros (i & Hi & Hv & Hsrc' & Hnot). exists i. split.
    + apply list_elem_of_In, elem_of_seqZ. lia.
    + unfold anomalous, fromEcu. rewrite Hv. simpl.
      rewrite bool_decide_eq_true_2 by exact Hsrc'. simpl.
      apply negb_true_iff, bool_decide_eq_false. exact Hnot.
Qed.

(** X14: the two ends of [detectAnomalousCommands]: an ECU without a
    verified message is never reported, whatever the known-safe list; and
    with an empty known-safe list every ECU that has a verified message is
    reported. *)
Theorem detectAnomalousCommands_edges s ecuId :
  no_collision s ecuId -> messageCount s < MAX_UINT256 ->
  (verifiedFrom s ecuId = [] ->
     forall known, no_command_collision s known ->
       detectAnomalousCommands ecuId known s = Success false s [])
  /\ (verifiedFrom s ecuId <> [] ->
      detectAnomalousCommands ecuId [] s = Success true s []).
Proof.
  intros Hsrc Hmax. split.
  - intros Hnone known Hcmd. rewrite detect_closed by assumption. f_equal.
    apply not_true_is_false. rewrite existsb_exists. intros (i & Hin & Han).
    unfold anomalous in Han. apply andb_prop in Han as [Hfrom _].
    assert (Hel : In i (verifiedFrom s ecuId)).
    { unfold verifiedFrom. apply filter_In. auto. }
    rewrite Hnone in Hel. destruct Hel.
  - intros Hsome. rewrite detect_closed; [|assumption| |assumption].
    + f_equal. destruct (verifiedFrom s ecuId) as [|i rest] eqn:Hlist; [congruence|].
      assert (Hel : In i (verifiedFrom s ecuId)) by (rewrite Hlist; by left).
      unfold verifiedFrom in Hel. apply filter_In in Hel as [Hin Hfrom].
      apply existsb_exists. exists i. split; [exact Hin|].
      unfold anomalous. rewrite Hfrom. reflexivity.
    + intros i known _ Hk. by apply elem_of_nil in Hk.
Qed.

(** *** Suspicious pairs *)

Lemma forMessages_skip {A} (body : Z -> A -> M A) s (n : nat) :
  (forall i acc, body i acc s = Success acc s []) ->
  messageCount s < MAX_UINT256 ->
  forall fuel i acc,
    (n <= fuel)%nat -> messageCount s + 1 - i <= Z.of_nat n ->
    forMessages fuel body i acc s = Success acc s [].
Proof.
  intros Hbody Hmax. induction n as [|n IH]; intros fuel i acc Hfuel Hn.
  - destruct fuel; simpl; run;
      (destruct (Z.leb_spec i (messageCount s)); [lia|reflexivity]).
  - destruct fuel as [|fuel]; [lia|]. simpl. run.
    destruct (Z.leb_spec i (messageCount s)); [|reflexivity]. simpl.
    rewrite Hbody. simpl.
    destruct (Z.leb_spec (i + 1) MAX_UINT256); [|lia]. simpl.
    rewrite IH by lia. reflexivity.
Qed.

Lemma never_suspicious d : suspicious d = false.
Proof. unfold suspicious, validateCommand. simpl. apply andb_false_r. Qed.

(** X15: [validateCommand] accepting everything, no pair is ever
    suspicious: below the largest counter [identifySuspiciousEcuPairs]
    returns the empty array, whatever messages are stored. *)
Theorem identifySuspiciousEcuPairs_empty s :
  messageCount s < MAX_UINT256 ->
  identifySuspiciousEcuPairs s = Success [] s [].
Proof.
  intros Hmax. unfold identifySuspiciousEcuPairs.
  unfold mbind at 1, M_bind at 1, bind at 1, gets at 1.
  unfold mbind at 1, M_bind at 1, bind at 1.
  rewrite (forMessages_skip _ s (Z.to_nat (messageCount s))); [|
    intros i acc; run; by rewrite never_suspicious | exact Hmax | lia | lia].
  run. rewrite (forMessages_skip _ s (Z.to_nat (messageCount s))); [reflexivity|
    intros i [index arr]; run; by rewrite never_suspicious | exact Hmax | lia | lia].
Qed.

End Analyses.

Section Composition.
Context `{FHELib} `{EVMBuiltins}.

(** X16: the whole life of a message, when the library lets it through:
    submit three handles the access-control list allows the contract on
    when verification is requested, request the verification of the new
    id, deliver the callback under the oracle's request id with an
    accepted proof and three strings, the source ECU having no counter yet
    or one the contract is allowed on; the message reads back empty and
    unverified after the submission, and with the three strings and
    [isVerified = true] after the callback, its encrypted record
    untouched. *)
Theorem submit_request_deliver e1 e2 e3 a b c cleartexts proof cmd src tgt s :
  0 <= messageCount s < MAX_UINT256 ->
  persistently_allowed e2 a = true ->
  persistently_allowed e2 b = true ->
  persistently_allowed e2 c = true ->
  signatures_ok e3 = true ->
  abi_decode_strings cleartexts = Some (cmd, src, tgt) ->
  counter_usable e3 s src = true ->
  let newId := messageCount s + 1 in
  let s1 := transact e1 (SubmitEncryptedCanMessage a b c) s in
  let s2 := transact e2 (RequestCommandVerification newId) s1 in
  let s3 := transact e3 (VerifyCommand (oracle_requestId e2) cleartexts proof) s2 in
  getDecryptedMessage newId s1 = Success ("", "", "", false) s1 []
  /\ getDecryptedMessage newId s3 = Success (cmd, src, tgt, true) s3 []
  /\ encryptedAt s3 newId = mkEncrypted newId a b c (block_timestamp e1)
  /\ messageCount s3 = newId.
Proof.
  intros Hmc Ha Hb Hc Hsig Hdec Huse newId s1 s2 s3.
  assert (H1 : s1 = submitted e1 a b c s).
  { unfold s1, transact; simpl. rewrite submit_closed.
    destruct (Z.leb_spec (messageCount s + 1) MAX_UINT256); [reflexivity|lia]. }
  assert (Hd1 : decryptedAt s1 newId = zeroDecrypted).
  { rewrite H1, decryptedAt_submitted. by rewrite decide_True. }
  assert (H2 : s2 = set_request (oracle_requestId e2) newId s1).
  { unfold s2, transact; simpl. rewrite request_closed. rewrite Hd1.
    replace (encryptedAt s1 newId) with (mkEncrypted newId a b c (block_timestamp e1))
      by (rewrite H1; unfold encryptedAt, submitted; simpl; by rewrite at_key_insert_eq).
    unfold request_allowed; simpl. by rewrite Ha, Hb, Hc. }
  assert (Hr : requestAt s2 (oracle_requestId e2) = newId).
  { rewrite H2. unfold requestAt, set_request; simpl. apply at_key_insert_eq. }
  assert (H3 : s3 = verified newId cmd src tgt s2).
  { unfold s3, transact; simpl. rewrite verify_closed. cbv zeta. rewrite Hr.
    destruct (Z.eqb_spec newId 0); [unfold newId in *; lia|].
    replace (decryptedAt s2 newId) with (decryptedAt s1 newId) by (by rewrite H2).
    rewrite Hd1, Hsig, Hdec.
    replace (counter_usable e3 s2 src) with (counter_usable e3 s src)
      by (by rewrite H2, H1).
    by rewrite Huse. }
  clearbody s1 s2 s3. split; [|split; [|split]].
  - unfold getDecryptedMessage. run. by rewrite Hd1.
  - unfold getDecryptedMessage. run. rewrite H3, decryptedAt_verified.
    by rewrite decide_True.
  - rewrite H3, H2, H1. unfold encryptedAt, verified, set_request, submitted; simpl.
    apply at_key_insert_eq.
  - by rewrite H3, H2, H1.
Qed.

(** *** The full counter *)

Lemma forMessages_overflow {A} (body : Z -> A -> M A) s :
  (forall i acc, body i acc s = Success acc s []) ->
  messageCount s = MAX_UINT256 ->
  forall fuel i acc,
    1 <= i <= MAX_UINT256 -> MAX_UINT256 - i < Z.of_nat fuel ->
    forMessages fuel body i acc s = Failure (Panic 17).
Proof.
  intros Hbody Hmc. induction fuel as [|fuel IH]; intros i acc Hi Hfuel; [lia|].
  simpl. run. destruct (Z.leb_spec i (messageCount s)); [|lia]. simpl.
  rewrite Hbody. simpl.
  destruct (Z.leb_spec (i + 1) MAX_UINT256); simpl; [|reflexivity].
  rewrite IH by lia. reflexivity.
Qed.

Lemma anomalyLoop_overflow ecuId known s :
  messageCount s = MAX_UINT256 ->
  forall fuel i,
    1 <= i <= MAX_UINT256 -> MAX_UINT256 - i < Z.of_nat fuel ->
    anomalyLoop fuel ecuId known i s = Success true s []
    \/ anomalyLoop fuel ecuId known i s = Failure (Panic 17).
Proof.
  intros Hmc. induction fuel as [|fuel IH]; intros i Hi Hfuel; [lia|].
  rewrite anomalyLoop_step by lia. cbv zeta.
  destruct (_ && _).
  - destruct (negb _); [by left|].
    destruct (Z.leb_spec (i + 1) MAX_UINT256); [|by right]. apply IH; lia.
  - destruct (Z.leb_spec (i + 1) MAX_UINT256); [|by right]. apply IH; lia.
Qed.

(** X17: once [messageCount] is the largest [uint256], the loops over the
    messages cannot finish: a further submission, [calculateEcuTrustScore]
    and [identifySuspiciousEcuPairs] all fail with [Panic 0x11], and
    [detectAnomalousCommands] either finds an anomaly or fails the same
    way: it never answers [false]. *)
Theorem full_counter_panics s :
  messageCount s = MAX_UINT256 ->
  (forall e a b c, submitEncryptedCanMessage e a b c s = Failure (Panic 17))
  /\ (forall ecuId, calculateEcuTrustScore ecuId s = Failure (Panic 17))
  /\ identifySuspiciousEcuPairs s = Failure (Panic 17)
  /\ (forall ecuId known,
        detectAnomalousCommands ecuId known s = Success true s []
        \/ detectAnomalousCommands ecuId known s = Failure (Panic 17)).
Proof.
  intros Hmc. pose proof MAX_UINT256_pos as Hpos. split; [|split; [|split]].
  - intros e a b c. rewrite submit_closed, Hmc.
    destruct (Z.leb_spec (MAX_UINT256 + 1) MAX_UINT256); [lia|reflexivity].
  - intros ecuId. by apply trustScore_overflow.
  - unfold identifySuspiciousEcuPairs.
    unfold mbind at 1, M_bind at 1, bind at 1, gets at 1.
    unfold mbind at 1, M_bind at 1, bind at 1.
    rewrite forMessages_overflow; [reflexivity| |exact Hmc|lia|lia].
    intros i acc. run. by rewrite never_suspicious.
  - intros ecuId known. unfold detectAnomalousCommands, mbind, M_bind, bind, gets.
    destruct (anomalyLoop_overflow ecuId known s Hmc (Z.to_nat (messageCount s)) 1)
      as [Hrun|Hrun]; [lia|lia|rewrite Hrun; by left|rewrite Hrun; by right].
Qed.

End Composition.

(** *** What the counter of an ECU counts *)

Section Counter.
Context `{FHELib} `{EVMBuiltins}.

(** The library computes on [euint32] values: [decrypt] is the cleartext of
    a handle, trivial encryption and addition modulo [2 ^ 32] are what
    [FHE.asEuint32] and [FHE.add] do to it. *)
Variable decrypt : euint32 -> Z.
Hypothesis decrypt_zero : decrypt (FHE_asEuint32 0) = 0.
Hypothesis decrypt_one : decrypt (FHE_asEuint32 1) = 1.
Hypothesis decrypt_add :
  forall a b, decrypt (FHE_add a b) = (decrypt a + decrypt b) mod 2 ^ 32.
Hypothesis FHE_add_initialized : forall a b, FHE_isInitialized (FHE_add a b) = true.

Lemma tallied_reachable s n : tallied s n -> reachable s.
Proof. induction 1; by constructor. Qed.

Lemma tally_invariant s n :
  tallied s n ->
  forall ecu,
    0 <= n ecu
    /\ (n ecu = 0 -> FHE_isInitialized (statsAt s ecu) = false /\ ecu ∉ ecuList s)
    /\ (0 < n ecu -> FHE_isInitialized (statsAt s ecu) = true /\ ecu ∈ ecuList s
                      /\ decrypt (statsAt s ecu) = n ecu mod 2 ^ 32).
Proof.
  induction 1 as [|s n e c Hs IH]; intros ecu.
  - split; [lia|]. split; [|lia]. intros _. split; [reflexivity|apply not_elem_of_nil].
  - assert (Hquiet : verifiedSource e c s = None ->
                     statsAt (transact e c s) ecu = statsAt s ecu
                     /\ ecuList (transact e c s) = ecuList s).
    { unfold verifiedSource, transact. destruct c as [a b t|i|r ct pf|ecu'|r ct pf]; simpl.
      - intros _. rewrite submit_closed. by destruct (_ <=? _).
      - intros _. rewrite request_closed.
        destruct (isVerified _); [done|]. by destruct (request_allowed e _).
      - destruct (verifyCommand e r ct pf s) as [[] s' evs|] eqn:Hv; [|done].
        apply verify_success in Hv as (cmd & src & tgt & -> & _ & _). discriminate.
      - intros _. rewrite requestStats_closed.
        destruct (FHE_isInitialized _); [|done]. by destruct (persistently_allowed e _).
      - intros _. destruct (decryptEcuStats e r ct pf s) as [u s' evs|] eqn:Hd; [|done].
        by apply decryptEcuStats_pure in Hd as [-> _]. }
    destruct (verifiedSource e c s) as [src|] eqn:Hsrc.
    + assert (Hs' : exists i cmd tgt, transact e c s = verified i cmd src tgt s).
      { unfold verifiedSource in Hsrc. unfold transact.
        destruct c as [a b t|i|r ct pf|ecu'|r ct pf]; try discriminate. simpl.
        destruct (verifyCommand e r ct pf s) as [[] s' evs|] eqn:Hv; [|discriminate].
        apply verify_success in Hv as (cmd & src' & tgt & Hdec & -> & _).
        rewrite Hdec in Hsrc. injection Hsrc as ->. eauto. }
      destruct Hs' as (i & cmd & tgt & ->). clear Hquiet.
      destruct (IH src) as (Hn0 & Hzero & Hpos).
      destruct (decide (src = ecu)) as [<-|Hne].
      * rewrite decide_True by reflexivity.
        split; [lia|]. split; [lia|]. intros _.
        assert (Hst : statsAt (verified i cmd src tgt s) src
                      = FHE_add (if FHE_isInitialized (statsAt s src)
                                 then statsAt s src else FHE_asEuint32 0)
                                (FHE_asEuint32 1)).
        { unfold statsAt at 1, verified; simpl. apply at_key_insert_eq. }
        assert (Hl : ecuList (verified i cmd src tgt s)
                     = if FHE_isInitialized (statsAt s src)
                       then ecuList s else ecuList s ++ [src]) by reflexivity.
        rewrite Hst, Hl, FHE_add_initialized, decrypt_add, decrypt_one.
        split; [reflexivity|].
        destruct (FHE_isInitialized (statsAt s src)) eqn:Hinit.
        -- assert (Hn : 0 < n src).
           { destruct (Z.eq_dec (n src) 0) as [Hz|Hz]; [|lia].
             destruct (Hzero Hz) as [Hno _]. congruence. }
           destruct (Hpos Hn) as (_ & Hel & Hd). split; [exact Hel|].
           rewrite Hd. apply Z.add_mod_idemp_l. lia.
        -- assert (Hn : n src = 0).
           { destruct (Z.eq_dec (n src) 0) as [Hz|Hz]; [exact Hz|].
             destruct (Hpos ltac:(lia)) as (Hyes & _). congruence. }
           split; [apply elem_of_app; right; apply list_elem_of_here|].
           by rewrite decrypt_zero, Hn.
      * rewrite decide_False by congruence.
        destruct (IH ecu) as (He0 & Hez & Hep).
        assert (Hst : statsAt (verified i cmd src tgt s) ecu = statsAt s ecu).
        { unfold statsAt, verified; simpl. by apply at_key_insert_ne. }
        assert (Hl : ecu ∈ ecuList (verified i cmd src tgt s) <-> ecu ∈ ecuList s).
        { unfold verified; simpl. destruct (FHE_isInitialized (statsAt s src)); [done|].
          rewrite elem_of_app, list_elem_of_singleton. split; [|tauto].
          intros [|]; [done|congruence]. }
        rewrite Hst, Hl. auto.
    + destruct (Hquiet eq_refl) as [-> ->]. rewrite decide_False by discriminate.
      apply IH.
Qed.

(** X18: the encrypted counter of an ECU counts the callbacks that verified
    a message of that ECU, modulo [2 ^ 32] (the library adding [euint32]
    values as such and returning initialised handles): an ECU is in the
    registry exactly when at least one callback verified a message of it,
    its counter then decrypts to that number modulo [2 ^ 32], and an ECU
    never verified has no counter. *)
Theorem counter_counts_verifications s n ecu :
  tallied s n ->
  reachable s
  /\ 0 <= n ecu
  /\ (ecu ∈ ecuList s <-> 0 < n ecu)
  /\ (0 < n ecu -> decrypt (statsAt s ecu) = n ecu mod 2 ^ 32)
  /\ (n ecu = 0 -> statsAt s ecu = 0).
Proof.
  intros Ht. destruct (tally_invariant s n Ht ecu) as (Hn0 & Hzero & Hpos).
  split; [by eapply tallied_reachable|]. split; [exact Hn0|].
  split; [|split].
  - split.
    + intros Hel. destruct (Z.eq_dec (n ecu) 0) as [Hz|Hz]; [|lia].
      destruct (Hzero Hz) as [_ Hno]. contradiction.
    + intros Hn. by destruct (Hpos Hn) as (_ & Hel & _).
  - intros Hn. by destruct (Hpos Hn) as (_ & _ & Hd).
  - intros Hz. destruct (Hzero Hz) as [Hno _].
    unfold FHE_isInitialized in Hno. apply negb_false_iff, Z.eqb_eq in Hno. exact Hno.
Qed.

End Counter.

(** * Runs on the reference instance *)

Module Runs.
Import Mock.
#[local] Existing Instances fhe evm.

Lemma add_initialized a b : FHE_isInitialized (FHE_add a b) = true.
Proof.
  unfold FHE_isInitialized; simpl. unfold add.
  pose proof (Z.mod_pos_bound (a + b) (2 ^ 32) ltac:(lia)).
  apply negb_true_iff, Z.eqb_neq. lia.
Qed.

Lemma reachable_s3 : reachable s3.
Proof. unfold s3, s2, s1, tx. do 3 apply reachable_transact. apply reachable_initial. Qed.

Lemma reachable_s4 : reachable s4.
Proof. unfold s4, tx. apply reachable_transact. exact reachable_s3. Qed.

Lemma reachable_s7 : reachable s7.
Proof. unfold s7, s6, s5, tx. do 3 apply reachable_transact. exact reachable_s4. Qed.

Lemma reachable_s8 : reachable s8.
Proof. unfold s8, tx. apply reachable_transact. exact reachable_s7. Qed.

Lemma steps_s4_s7 : steps s4 s7.
Proof. unfold s7, s6, s5, tx. do 3 apply steps_transact. apply steps_refl. Qed.

(** Submit, request, deliver: the decrypted message reads back verified. *)
Example end_to_end :
  getDecryptedMessage 1 s4 = Success ("SET_TORQUE", "ECU_A", "ECU_B", true) s4 [].
Proof. reflexivity. Qed.

Example trust_score_unknown_ecu : calculateEcuTrustScore "ECU_Z" s7 = Success 100 s7 [].
Proof. reflexivity. Qed.

(** [n] submissions bring the counter to [n] and verify nothing. *)
Lemma submit_n_facts (n : nat) :
  Z.of_nat n <= MAX_UINT256 ->
  reachable (submit_n n)
  /\ messageCount (submit_n n) = Z.of_nat n
  /\ forall i, isVerified (decryptedAt (submit_n n) i) = false.
Proof.
  induction n as [|n IH]; intros Hn.
  - split; [apply reachable_initial|]. split; reflexivity.
  - destruct IH as (Hr & Hmc & Hun); [lia|].
    change (submit_n (S n))
      with (transact (at_time alice 0 0) (SubmitEncryptedCanMessage 0 0 0) (submit_n n)).
    split; [by apply reachable_transact|].
    unfold transact. simpl exec. rewrite submit_closed.
    destruct (Z.leb_spec (messageCount (submit_n n) + 1) MAX_UINT256); [|lia].
    split; [simpl; lia|].
    intros i. rewrite decryptedAt_submitted. case_decide; [reflexivity|apply Hun].
Qed.

Lemma full_facts :
  reachable full
  /\ messageCount full = MAX_UINT256
  /\ forall i, isVerified (decryptedAt full i) = false.
Proof.
  pose proof MAX_UINT256_pos as Hpos. unfold full.
  destruct (submit_n_facts (Z.to_nat MAX_UINT256)) as (Hr & Hmc & Hun).
  { rewrite Z2Nat.id; lia. }
  rewrite Z2Nat.id in Hmc by lia. auto.
Qed.

(** C1 at work: message 1 is verified in [s4] and request 8 maps to it. *)
Lemma verifyCommand_already_verified_witness :
  reachable s4
  /\ isVerified (decryptedAt s4 1) = true
  /\ requestAt s4 8 = 1
  /\ verifyCommand (at_time oracle 1010 0) 8 torque [] s4
     = Failure (Revert "Already verified")
  /\ transact (at_time oracle 1010 0) (VerifyCommand 8 torque []) s4 = s4.
Proof.
  split; [exact reachable_s4|]. split; [reflexivity|]. split; [reflexivity|].
  apply (verifyCommand_already_verified s4 (at_time oracle 1010 0) 1 8 torque []);
    [exact reachable_s4|reflexivity|reflexivity].
Defined.

(** C2 refuted: requests 7 and 8 both map to message 1, the callback
    through 7 verified it, and the callback through the fresh id 8 is
    rejected. *)
Lemma fresh_duplicate_is_rejected :
  7 <> 8
  /\ requestAt s3 7 = 1 /\ requestAt s3 8 = 1
  /\ verifyCommand (at_time oracle 1003 0) 7 torque [] s3
     = Success tt s4 [DecryptionFulfilled 7; MessageVerified 1]
  /\ isVerified (decryptedAt s4 1) = true
  /\ verifyCommand (at_time oracle 1010 0) 8 torque [] s4
     = Failure (Revert "Already verified")
  /\ ~ (exists s' evs,
          verifyCommand (at_time oracle 1010 0) 8 torque [] s4 = Success tt s' evs).
Proof.
  assert (Hrun : verifyCommand (at_time oracle 1010 0) 8 torque [] s4
                 = Failure (Revert "Already verified")) by (vm_compute; reflexivity).
  split; [lia|]. split; [reflexivity|]. split; [reflexivity|].
  split; [vm_compute; reflexivity|]. split; [reflexivity|]. split; [exact Hrun|].
  intros (s' & evs & Hok). rewrite Hrun in Hok. discriminate.
Qed.

Lemma duplicate_request_rejected_witness :
  7 <> 8
  /\ requestAt s3 7 = requestAt s3 8
  /\ verifyCommand (at_time oracle 1003 0) 7 torque [] s3
     = Success tt s4 [DecryptionFulfilled 7; MessageVerified 1]
  /\ verifyCommand (at_time oracle 1010 0) 8 brake [] s4
     = Failure (Revert "Already verified").
Proof.
  assert (Hne : 7 <> 8) by lia.
  assert (Hsame : requestAt s3 7 = requestAt s3 8) by reflexivity.
  assert (Hok : verifyCommand (at_time oracle 1003 0) 7 torque [] s3
                = Success tt s4 [DecryptionFulfilled 7; MessageVerified 1]) by (vm_compute; reflexivity).
  split; [exact Hne|]. split; [exact Hsame|]. split; [exact Hok|].
  exact (proj1 (proj2 (proj2
    (duplicate_request_rejected s3 (at_time oracle 1003 0) (at_time oracle 1010 0)
       7 8 torque [] brake [] s4 [DecryptionFulfilled 7; MessageVerified 1] Hne Hsame Hok)))).
Defined.

(** C3 refuted: after [MAX_UINT256] submissions the counter is full and the
    next submission panics on the checked increment. *)
Lemma submit_fails_at_full_counter :
  reachable full
  /\ messageCount full = MAX_UINT256
  /\ submitEncryptedCanMessage (at_time alice 0 0) 11 12 13 full = Failure (Panic 17)
  /\ ~ (exists s' evs,
          submitEncryptedCanMessage (at_time alice 0 0) 11 12 13 full
          = Success tt s' evs).
Proof.
  destruct full_facts as (Hr & Hmc & _).
  assert (Hrun : submitEncryptedCanMessage (at_time alice 0 0) 11 12 13 full
                 = Failure (Panic 17)).
  { rewrite submit_closed, Hmc.
    destruct (Z.leb_spec (MAX_UINT256 + 1) MAX_UINT256); [lia|reflexivity]. }
  split; [exact Hr|]. split; [exact Hmc|]. split; [exact Hrun|].
  intros (s' & evs & Hok). rewrite Hrun in Hok. discriminate.
Qed.

Lemma submit_assigns_next_id_witness :
  messageCount s4 < MAX_UINT256
  /\ exists s',
      submitEncryptedCanMessage (at_time alice 1004 0) 21 22 23 s4
        = Success tt s' [MessageReceived 2 1004]
      /\ messageCount s' = 2
      /\ decryptedAt s' 2 = mkDecrypted "" "" "" false.
Proof.
  assert (Hlt : messageCount s4 < MAX_UINT256) by (vm_compute; reflexivity).
  split; [exact Hlt|].
  destruct (proj2 (submit_assigns_next_id (at_time alice 1004 0) 21 22 23 s4 Hlt))
    as (s' & Hrun & Hmc & _ & Hdec & _).
  exists s'. split; [exact Hrun|]. split; [exact Hmc|exact Hdec].
Defined.

Lemma decrypted_record_lifecycle_witness :
  reachable s4
  /\ steps s4 s7
  /\ 1 <= 1 <= messageCount s4
  /\ isVerified (decryptedAt s4 1) = true
  /\ isVerified (decryptedAt s7 1) = true
  /\ decryptedAt s7 1 = decryptedAt s4 1.
Proof.
  assert (Hi : 1 <= 1 <= messageCount s4) by (vm_compute; split; discriminate).
  assert (Hv : isVerified (decryptedAt s4 1) = true) by reflexivity.
  split; [exact reachable_s4|]. split; [exact steps_s4_s7|].
  split; [exact Hi|]. split; [exact Hv|].
  exact (proj2 (proj2 (decrypted_record_lifecycle s4 reachable_s4)) s7 1 steps_s4_s7 Hi Hv).
Defined.

(** C5 refuted: id 5 was never submitted and is not verified, yet the
    request for it reverts: the library refuses its zero handles. *)
Lemma never_submitted_request_refused :
  reachable initial
  /\ isVerified (decryptedAt initial 5) = false
  /\ encryptedAt initial 5 = zeroEncrypted
  /\ requestCommandVerification (at_time alice 1000 7) 5 initial = Failure SenderNotAllowed
  /\ ~ (exists s' evs,
          requestCommandVerification (at_time alice 1000 7) 5 initial = Success tt s' evs).
Proof.
  assert (Hrun : requestCommandVerification (at_time alice 1000 7) 5 initial
                 = Failure SenderNotAllowed) by (vm_compute; reflexivity).
  split; [apply reachable_initial|]. split; [reflexivity|]. split; [reflexivity|].
  split; [exact Hrun|].
  intros (s' & evs & Hok). rewrite Hrun in Hok. discriminate.
Qed.

(** C5 at work: message 1 is submitted, not verified, already has request 7
    outstanding in [s2], and the list allows its three handles. *)
Lemma requestCommandVerification_outcome_witness :
  isVerified (decryptedAt s2 1) = false
  /\ request_allowed (at_time alice 1002 8) (encryptedAt s2 1) = true
  /\ requestAt s2 7 = 1
  /\ requestCommandVerification (at_time alice 1002 8) 1 s2
     = Success tt (set_request 8 1 s2) [VerificationRequested 1].
Proof.
  assert (Hun : isVerified (decryptedAt s2 1) = false) by (vm_compute; reflexivity).
  assert (Hok : request_allowed (at_time alice 1002 8) (encryptedAt s2 1) = true)
    by (vm_compute; reflexivity).
  split; [exact Hun|]. split; [exact Hok|]. split; [vm_compute; reflexivity|].
  exact (proj1 (proj1 (proj2
           (requestCommandVerification_outcome (at_time alice 1002 8) 1 s2)) Hun Hok)).
Defined.

(** C6 at work: request 99 was never issued. *)
Lemma verifyCommand_unknown_request_witness :
  requestAt s4 99 = 0
  /\ verifyCommand (at_time oracle 1010 0) 99 torque [] s4
     = Failure (Revert "Invalid request")
  /\ transact (at_time oracle 1010 0) (VerifyCommand 99 torque []) s4 = s4.
Proof.
  split; [reflexivity|].
  exact (verifyCommand_unknown_request (at_time oracle 1010 0) 99 torque [] s4 eq_refl).
Defined.

(** C7 at work: two verified messages from ECU_A, one registry entry. *)
Lemma ecuList_no_duplicates_witness :
  (forall a b, FHE_isInitialized (FHE_add a b) = true)
  /\ reachable s7
  /\ sourceEcu (decryptedAt s7 1) = "ECU_A" /\ sourceEcu (decryptedAt s7 2) = "ECU_A"
  /\ ecuList s7 = ["ECU_A"]
  /\ NoDup (ecuList s7).
Proof.
  split; [exact add_initialized|]. split; [exact reachable_s7|].
  split; [reflexivity|]. split; [reflexivity|]. split; [reflexivity|].
  exact (proj1 (ecuList_no_duplicates add_initialized s7 reachable_s7)).
Defined.

(** C8 refuted: with the counter full, an ECU without any verified message
    does not get the score 100: the call panics. *)
Lemma trustScore_fails_at_full_counter :
  reachable full
  /\ length (verifiedFrom full "ECU_A") = 0%nat
  /\ calculateEcuTrustScore "ECU_A" full = Failure (Panic 17)
  /\ calculateEcuTrustScore "ECU_A" full <> Success 100 full [].
Proof.
  destruct full_facts as (Hr & Hmc & Hun).
  assert (Hrun : calculateEcuTrustScore "ECU_A" full = Failure (Panic 17))
    by (by apply trustScore_overflow).
  split; [exact Hr|]. split; [|split; [exact Hrun|by rewrite Hrun]].
  unfold verifiedFrom. rewrite filter_none; [reflexivity|].
  intros i. unfold fromEcu. by rewrite Hun.
Qed.

Lemma no_collision_s7 : no_collision s7 "ECU_A".
Proof.
  intros i Hi _ _. change (messageCount s7) with 2 in Hi.
  assert (Hcases : i = 1 \/ i = 2) by lia.
  destruct Hcases as [-> | ->]; reflexivity.
Qed.

Lemma calculateEcuTrustScore_value_witness :
  messageCount s7 < MAX_UINT256
  /\ no_collision s7 "ECU_A"
  /\ verifiedFrom s7 "ECU_A" = [1; 2]
  /\ passing s7 "ECU_A" = [1; 2]
  /\ calculateEcuTrustScore "ECU_A" s7 = Success 100 s7 [].
Proof.
  assert (Hlt : messageCount s7 < MAX_UINT256) by (vm_compute; reflexivity).
  assert (Hk : Z.of_nat (length (passing s7 "ECU_A")) * 100 <= MAX_UINT256)
    by (vm_compute; discriminate).
  split; [exact Hlt|]. split; [exact no_collision_s7|].
  split; [reflexivity|]. split; [reflexivity|].
  exact (proj1 (calculateEcuTrustScore_value s7 "ECU_A" Hlt no_collision_s7 Hk)).
Defined.

(** C9 at work: the callback for request 20 succeeds and [s8] stays. *)
Lemma decryptEcuStats_writes_nothing_witness :
  decryptEcuStats (at_time oracle 1010 0) 20 (be32 2) [] s8
    = Success tt s8 [DecryptionFulfilled 20]
  /\ transact (at_time oracle 1010 0) (DecryptEcuStats 20 (be32 2) []) s8 = s8.
Proof.
  assert (Hex : exists a s' evs,
             decryptEcuStats (at_time oracle 1010 0) 20 (be32 2) [] s8 = Success a s' evs).
  { eexists _, _, _. vm_compute. reflexivity. }
  destruct Hex as (a & s' & evs & Hok).
  pose proof (decryptEcuStats_writes_nothing (at_time oracle 1010 0) 20 (be32 2) [] s8)
    as [Hsame Hpure].
  destruct (Hpure a s' evs Hok) as (-> & -> & ->).
  split; [exact Hok|exact Hsame].
Defined.


Lemma acl_sound_granted who t r : acl_sound (as_granted who t r).
Proof.
  intros a b. simpl. unfold user_acl, add.
  pose proof (Z.mod_pos_bound (a + b) (2 ^ 32) ltac:(lia)).
  apply Z.ltb_ge. lia.
Qed.





End Runs.

(** * The further properties on the reference instance *)

Module Checks.
Import Mock MoreRuns Runs.
#[local] Existing Instances fhe evm.

Ltac by_cases_on_id Hh :=
  first [reflexivity | vm_compute in Hh; discriminate Hh].

Lemma hashA_nonzero : hashA <> 0.
Proof. vm_compute. discriminate. Qed.

Lemma reachable_s11 : reachable s11.
Proof. unfold s11, s10, s9, tx. do 3 apply reachable_transact. exact reachable_s8. Qed.

Lemma decrypt_add_mock a b : decrypt (FHE_add a b) = (decrypt a + decrypt b) mod 2 ^ 32.
Proof.
  simpl. unfold decrypt, add. rewrite <- Z.add_mod by lia.
  replace (2 ^ 33 + (a + b) mod 2 ^ 32) with ((a + b) mod 2 ^ 32 + 2 * 2 ^ 32) by lia.
  rewrite Z_mod_plus_full. apply Z.mod_mod. lia.
Qed.

Lemma no_collision_s11_A : no_collision s11 "ECU_A".
Proof.
  intros i Hi _ Hh. change (messageCount s11) with 3 in Hi.
  assert (Hcases : i = 1 \/ i = 2 \/ i = 3) by lia.
  destruct Hcases as [-> | [-> | ->]]; by_cases_on_id Hh.
Qed.

Lemma no_collision_s11_Z : no_collision s11 "ECU_Z".
Proof.
  intros i Hi _ Hh. change (messageCount s11) with 3 in Hi.
  assert (Hcases : i = 1 \/ i = 2 \/ i = 3) by lia.
  destruct Hcases as [-> | [-> | ->]]; by_cases_on_id Hh.
Qed.

Lemma no_command_collision_s11 : no_command_collision s11 ["SET_TORQUE"].
Proof.
  intros i known Hi Hk Hh. apply list_elem_of_singleton in Hk. subst known.
  change (messageCount s11) with 3 in Hi.
  assert (Hcases : i = 1 \/ i = 2 \/ i = 3) by lia.
  destruct Hcases as [-> | [-> | ->]]; by_cases_on_id Hh.
Qed.

Lemma registry_s7 : ecuList s7 = [] ++ "ECU_A" :: [].
Proof. vm_compute. reflexivity. Qed.

Lemma ECU_A_registered : "ECU_A" ∈ ecuList s7.
Proof. rewrite registry_s7. apply list_elem_of_here. Qed.

Lemma getEcuFromHash_first_match_witness :
  getEcuFromHash hashA s7 = Success "ECU_A" s7 [].
Proof.
  apply (proj1 (getEcuFromHash_first_match hashA s7) "ECU_A" s7 []).
  split; [reflexivity|]. split; [reflexivity|].
  exists [], []. split; [exact registry_s7|]. split; [reflexivity|].
  intros x Hx. by apply elem_of_nil in Hx.
Defined.

Lemma decryptEcuStats_resolution_witness :
  requestAt s8 99 = 0
  /\ decryptEcuStats (at_time oracle 1010 0) 99 (be32 2) [] s8
     = Failure (Revert "ECU not found").
Proof.
  split; [reflexivity|].
  apply (proj1 (decryptEcuStats_resolution (at_time oracle 1010 0) 99 (be32 2) [] s8)).
  intros x Hx. change (ecuList s8) with ["ECU_A"] in Hx.
  apply list_elem_of_singleton in Hx. subst x. exact hashA_nonzero.
Defined.

Lemma counter_is_a_sum : acl_allowed (as_granted alice 1007 20) (statsAt s7 "ECU_A") = false.
Proof. vm_compute. reflexivity. Qed.

Lemma requestEcuStatsDecryption_registered_witness :
  reachable s7
  /\ acl_sound (as_granted alice 1007 20)
  /\ ("ECU_A" ∈ ecuList s7)
  /\ requestEcuStatsDecryption (as_granted alice 1007 20) "ECU_A" s7
     = Failure SenderNotAllowed
  /\ ("ECU_Z" ∉ ecuList s7)
  /\ requestEcuStatsDecryption (as_granted alice 1007 20) "ECU_Z" s7
     = Failure (Revert "ECU not found").
Proof.
  pose proof ECU_A_registered as HA.
  assert (HZ : "ECU_Z" ∉ ecuList s7).
  { rewrite registry_s7. simpl. rewrite list_elem_of_singleton. discriminate. }
  pose proof (requestEcuStatsDecryption_registered add_initialized
                (as_granted alice 1007 20) "ECU_A" s7 reachable_s7)
    as (_ & _ & Hno & _).
  pose proof (requestEcuStatsDecryption_registered add_initialized
                (as_granted alice 1007 20) "ECU_Z" s7 reachable_s7)
    as (Hnone & _).
  split; [exact reachable_s7|]. split; [apply acl_sound_granted|].
  split; [exact HA|]. split; [exact (Hno HA counter_is_a_sum)|].
  split; [exact HZ|exact (Hnone HZ)].
Defined.

Lemma verified_message_reads_back_witness :
  verifyCommand (at_time oracle 1003 0) 7 torque [] s3 = Success tt s4 [DecryptionFulfilled 7; MessageVerified 1]
  /\ exists cmd src tgt,
      abi_decode_strings torque = Some (cmd, src, tgt)
      /\ getDecryptedMessage (requestAt s3 7) s4 = Success (cmd, src, tgt, true) s4 []
      /\ [DecryptionFulfilled 7; MessageVerified 1]
         = [DecryptionFulfilled 7; MessageVerified (requestAt s3 7)].
Proof.
  assert (Hok : verifyCommand (at_time oracle 1003 0) 7 torque [] s3
                = Success tt s4 [DecryptionFulfilled 7; MessageVerified 1]) by (vm_compute; reflexivity).
  split; [exact Hok|].
  exact (verified_message_reads_back (at_time oracle 1003 0) 7 torque [] s3 s4
           [DecryptionFulfilled 7; MessageVerified 1] Hok).
Defined.

Lemma verifyCommand_frame_witness :
  verifyCommand (at_time oracle 1006 0) 9 brake [] s6 = Success tt s7 [DecryptionFulfilled 9; MessageVerified 2]
  /\ messageCount s7 = messageCount s6
  /\ decryptedAt s7 1 = decryptedAt s6 1
  /\ requestToMessageId s7 = requestToMessageId s6.
Proof.
  assert (Hok : verifyCommand (at_time oracle 1006 0) 9 brake [] s6
                = Success tt s7 [DecryptionFulfilled 9; MessageVerified 2]) by (vm_compute; reflexivity).
  destruct (verifyCommand_frame (at_time oracle 1006 0) 9 brake [] s6 s7
              [DecryptionFulfilled 9; MessageVerified 2] Hok) as (Hmc & _ & Hreq & Hother & _).
  split; [exact Hok|]. split; [exact Hmc|]. split; [|exact Hreq].
  apply Hother. vm_compute. discriminate.
Defined.

Lemma encrypted_records_match_counter_witness :
  reachable s7
  /\ id (encryptedAt s7 2) = 2
  /\ encryptedAt s7 3 = zeroEncrypted.
Proof.
  destruct (encrypted_records_match_counter s7 reachable_s7) as (_ & Hin & Hout).
  split; [exact reachable_s7|]. split.
  - apply Hin. vm_compute. split; discriminate.
  - apply Hout. vm_compute. intros [_ Hle]. by apply Hle.
Defined.

Lemma encrypted_record_immutable_witness :
  steps s4 s7
  /\ 1 <= messageCount s4
  /\ encryptedAt s7 1 = encryptedAt s4 1
  /\ messageCount s4 <= messageCount s7.
Proof.
  assert (Hi : 1 <= messageCount s4) by (vm_compute; discriminate).
  split; [exact steps_s4_s7|]. split; [exact Hi|].
  exact (encrypted_record_immutable s4 s7 1 steps_s4_s7 Hi).
Defined.

Lemma request_table_written_by_requests_witness :
  requestAt s2 7 <> requestAt s1 7
  /\ 7 = oracle_requestId (at_time alice 1001 7)
  /\ requestAt s2 7 = 1.
Proof.
  assert (Hne : requestAt (transact (at_time alice 1001 7) (RequestCommandVerification 1) s1) 7
                <> requestAt s1 7) by (vm_compute; discriminate).
  destruct (request_table_written_by_requests (at_time alice 1001 7)
              (RequestCommandVerification 1) s1 7 Hne) as [Hr _].
  split; [exact Hne|]. split; [exact Hr|reflexivity].
Defined.

Lemma registry_append_only_witness :
  (forall a b, FHE_isInitialized (FHE_add a b) = true)
  /\ steps s4 s7
  /\ (ecuList s4 `prefix_of` ecuList s7)
  /\ FHE_isInitialized (statsAt s7 "ECU_A") = true.
Proof.
  destruct (registry_append_only s4 s7 add_initialized steps_s4_s7) as [Hpre Hkeep].
  split; [exact add_initialized|]. split; [exact steps_s4_s7|]. split; [exact Hpre|].
  apply Hkeep. reflexivity.
Defined.

Lemma trust_score_is_always_100_witness :
  messageCount s11 * 100 <= MAX_UINT256
  /\ calculateEcuTrustScore "ECU_D" s11 = Success 100 s11 []
  /\ calculateEcuTrustScore "no such ECU" s11 = Success 100 s11 [].
Proof.
  assert (Hfit : messageCount s11 * 100 <= MAX_UINT256) by (vm_compute; discriminate).
  split; [exact Hfit|].
  split; exact (trust_score_is_always_100 _ s11 Hfit).
Defined.

Lemma detectAnomalousCommands_meaning_witness :
  no_collision s11 "ECU_A"
  /\ no_command_collision s11 ["SET_TORQUE"]
  /\ messageCount s11 < MAX_UINT256
  /\ command (decryptedAt s11 2) = "BRAKE"
  /\ detectAnomalousCommands "ECU_A" ["SET_TORQUE"] s11 = Success true s11 [].
Proof.
  assert (Hlt : messageCount s11 < MAX_UINT256) by (vm_compute; reflexivity).
  destruct (detectAnomalousCommands_meaning s11 "ECU_A" ["SET_TORQUE"]
              no_collision_s11_A no_command_collision_s11 Hlt) as (b & Hrun & Hiff).
  assert (Hb : b = true).
  { apply Hiff. exists 2. split; [vm_compute; split; discriminate|].
    split; [reflexivity|]. split; [reflexivity|].
    rewrite list_elem_of_singleton. vm_compute. discriminate. }
  split; [exact no_collision_s11_A|]. split; [exact no_command_collision_s11|].
  split; [exact Hlt|]. split; [reflexivity|].
  rewrite Hrun, Hb. reflexivity.
Defined.

Lemma detectAnomalousCommands_edges_witness :
  no_collision s11 "ECU_Z"
  /\ messageCount s11 < MAX_UINT256
  /\ verifiedFrom s11 "ECU_Z" = []
  /\ detectAnomalousCommands "ECU_Z" ["SET_TORQUE"] s11 = Success false s11 [].
Proof.
  assert (Hlt : messageCount s11 < MAX_UINT256) by (vm_compute; reflexivity).
  assert (Hnone : verifiedFrom s11 "ECU_Z" = []) by reflexivity.
  split; [exact no_collision_s11_Z|]. split; [exact Hlt|]. split; [exact Hnone|].
  exact (proj1 (detectAnomalousCommands_edges s11 "ECU_Z" no_collision_s11_Z Hlt)
           Hnone ["SET_TORQUE"] no_command_collision_s11).
Defined.

Lemma identifySuspiciousEcuPairs_empty_witness :
  messageCount s11 < MAX_UINT256
  /\ identifySuspiciousEcuPairs s11 = Success [] s11 [].
Proof.
  assert (Hlt : messageCount s11 < MAX_UINT256) by (vm_compute; reflexivity).
  split; [exact Hlt|exact (identifySuspiciousEcuPairs_empty s11 Hlt)].
Defined.

Lemma submit_request_deliver_witness :
  0 <= messageCount s8 < MAX_UINT256
  /\ counter_usable (at_time oracle 1011 0) s8 "ECU_D" = true
  /\ getDecryptedMessage 3 s9 = Success ("", "", "", false) s9 []
  /\ getDecryptedMessage 3 s11 = Success ("HORN", "ECU_D", "ECU_B", true) s11 []
  /\ encryptedAt s11 3 = mkEncrypted 3 31 32 33 1009
  /\ messageCount s11 = 3.
Proof.
  assert (Hmc : 0 <= messageCount s8 < MAX_UINT256)
    by (vm_compute; split; [discriminate|reflexivity]).
  assert (Hdec : abi_decode_strings horn = Some ("HORN", "ECU_D", "ECU_B"))
    by (vm_compute; reflexivity).
  assert (Huse : counter_usable (at_time oracle 1011 0) s8 "ECU_D" = true)
    by (vm_compute; reflexivity).
  split; [exact Hmc|]. split; [exact Huse|].
  exact (submit_request_deliver (at_time alice 1009 0) (at_time alice 1010 30)
           (at_time oracle 1011 0) 31 32 33 horn [] "HORN" "ECU_D" "ECU_B" s8
           Hmc eq_refl eq_refl eq_refl eq_refl Hdec Huse).
Defined.

Lemma full_counter_panics_witness :
  messageCount full = MAX_UINT256
  /\ calculateEcuTrustScore "ECU_A" full = Failure (Panic 17)
  /\ identifySuspiciousEcuPairs full = Failure (Panic 17).
Proof.
  destruct full_facts as (_ & Hmc & _).
  destruct (full_counter_panics full Hmc) as (_ & Htrust & Hpairs & _).
  split; [exact Hmc|]. split; [exact (Htrust "ECU_A")|exact Hpairs].
Defined.

Lemma decrypt_zero_mock : decrypt (FHE_asEuint32 0) = 0.
Proof. vm_compute. reflexivity. Qed.

Lemma decrypt_one_mock : decrypt (FHE_asEuint32 1) = 1.
Proof. vm_compute. reflexivity. Qed.

Lemma tally_s11 : exists n, tallied s11 n /\ n "ECU_A" = 2 /\ n "ECU_Z" = 0.
Proof.
  eexists. split.
  { unfold s11, s10, s9, s8, s7, s6, s5, s4, s3, s2, s1, tx.
    do 11 apply tallied_transact. apply tallied_initial. }
  split; vm_compute; reflexivity.
Qed.

Lemma counter_counts_verifications_witness :
  exists n,
    tallied s11 n
    /\ n "ECU_A" = 2
    /\ ("ECU_A" ∈ ecuList s11)
    /\ decrypt (statsAt s11 "ECU_A") = n "ECU_A" mod 2 ^ 32
    /\ n "ECU_Z" = 0
    /\ statsAt s11 "ECU_Z" = 0.
Proof.
  destruct tally_s11 as (n & Ht & HA & HZ). exists n.
  destruct (counter_counts_verifications decrypt decrypt_zero_mock decrypt_one_mock
              decrypt_add_mock add_initialized s11 n "ECU_A" Ht) as (_ & _ & HinA & HdA & _).
  destruct (counter_counts_verifications decrypt decrypt_zero_mock decrypt_one_mock
              decrypt_add_mock add_initialized s11 n "ECU_Z" Ht) as (_ & _ & _ & _ & HzZ).
  assert (Hpos : 0 < n "ECU_A") by (rewrite HA; lia).
  split; [exact Ht|]. split; [exact HA|]. split; [exact (proj2 HinA Hpos)|].
  split; [exact (HdA Hpos)|]. split; [exact HZ|exact (HzZ HZ)].
Defined.

Lemma sums_are_not_trivial a b : FHE_add a b <> FHE_asEuint32 1.
Proof.
  simpl. unfold add, asEuint32.
  pose proof (Z.mod_pos_bound (a + b) (2 ^ 32) ltac:(lia)).
  pose proof (Z.mod_pos_bound 1 (2 ^ 32) ltac:(lia)). lia.
Qed.

Lemma reachable_g6 : reachable g6.
Proof.
  unfold g6, g4, g3, g2, g1, tx. do 5 apply reachable_transact. apply reachable_initial.
Qed.

Lemma second_verification_refused_witness :
  requestAt g6 9 <> 0
  /\ isVerified (decryptedAt g6 (requestAt g6 9)) = false
  /\ abi_decode_strings brake = Some ("BRAKE", "ECU_A", "ECU_C")
  /\ FHE_isInitialized (statsAt g6 "ECU_A") = true
  /\ verifyCommand (as_granted oracle 1006 0) 9 brake [] g6 = Failure ACLNotAllowed
  /\ transact (as_granted oracle 1006 0) (VerifyCommand 9 brake []) g6 = g6.
Proof.
  assert (Hnz : requestAt g6 9 <> 0) by (vm_compute; discriminate).
  assert (Hun : isVerified (decryptedAt g6 (requestAt g6 9)) = false)
    by (vm_compute; reflexivity).
  assert (Hdec : abi_decode_strings brake = Some ("BRAKE", "ECU_A", "ECU_C"))
    by (vm_compute; reflexivity).
  assert (Hinit : FHE_isInitialized (statsAt g6 "ECU_A") = true)
    by (vm_compute; reflexivity).
  split; [exact Hnz|]. split; [exact Hun|]. split; [exact Hdec|]. split; [exact Hinit|].
  exact (second_verification_refused (as_granted oracle 1006 0) 9 brake []
           "BRAKE" "ECU_A" "ECU_C" g6 sums_are_not_trivial reachable_g6
           (acl_sound_granted oracle 1006 0) Hnz Hun eq_refl Hdec Hinit).
Defined.

End Checks.
